(** * FreeCAD ExtMan: the web-view bridge, the flags database and the HTTP helper

    A shallow embedding of [freecad/extman/webview.py],
    [freecad/extman/protocol/flags.py] and [freecad/extman/protocol/http.py],
    and the properties proved about them.

    Conventions of the embedding.
    - A Python [str] is a [string]; its characters stand for the code points
      U+0000 to U+00FF, and the character tables below ([is_word], [lower])
      are Python's on that range.
    - [bytes] is [list byte].
    - A call that may raise returns a [res]; a function with side effects is
      a [prog] over the state it touches, and what it does to the outside
      world (a callback invoked, a reply sent, a line logged) is an [event]
      appended to a trace.
    - Objects that the code shares and mutates (the flag dictionaries, the
      package records) live in a heap and are named by their location. *)

From Stdlib Require Import ZArith Lia Bool Ascii String List.
From Stdlib Require Strings.Byte.
From Stdlib Require Import Init.Byte.
From stdpp Require Import gmap strings list fin_maps.

Open Scope string_scope.
Open Scope list_scope.

(* ===================================================================== *)
(** * Part I: the program                                                 *)
(* ===================================================================== *)

(** ** Python values, exceptions and effects *)
Module Py.

(** Exceptions, as far as the [except] clauses of the code tell them apart:
    [urllib.error.URLError] (and its subclasses) carries a reason,
    [UnboundLocalError] names the local that was read before assignment,
    anything else is an [OtherError] with its class name and message. *)
Inductive exn : Type :=
| URLError (reason : string)
| UnboundLocalError (var : string)
| OtherError (cls msg : string).

(** The outcome of a call: a value, or an exception raised. *)
Inductive res (A : Type) : Type :=
| Ok (a : A)
| Raise (e : exn).
Arguments Ok {A} a.
Arguments Raise {A} e.

Definition raises {A} (r : res A) : bool :=
  match r with Ok _ => false | Raise _ => true end.

(** A program over a state [S]: side effects made before an exception is
    raised stay made. *)
Definition prog (S A : Type) : Type := S -> S * res A.

Definition ret {S A} (a : A) : prog S A := fun s => (s, Ok a).

Definition throw {S A} (e : exn) : prog S A := fun s => (s, Raise e).

Definition bind {S A B} (m : prog S A) (k : A -> prog S B) : prog S B :=
  fun s => match m s with
           | (s', Ok a) => k a s'
           | (s', Raise e) => (s', Raise e)
           end.

(** [try: m except e: h e] *)
Definition try_except {S A} (m : prog S A) (h : exn -> prog S A) : prog S A :=
  fun s => match m s with
           | (s', Ok a) => (s', Ok a)
           | (s', Raise e) => h e s'
           end.

(** A call into the environment whose outcome is already known. *)
Definition lift {S A} (r : res A) : prog S A := fun s => (s, r).

Definition get {S} : prog S S := fun s => (s, Ok s).
Definition modify {S} (f : S -> S) : prog S unit := fun s => (f s, Ok tt).

(** *** Characters and strings *)

Definition code (c : ascii) : N := N_of_ascii c.

Definition between (lo hi n : N) : bool := (lo <=? n)%N && (n <=? hi)%N.

(** [\w] of a [str] pattern: the characters [c] with [c.isalnum()] and the
    underscore. *)
Definition is_word (c : ascii) : bool :=
  let n := code c in
  between 48 57 n || between 65 90 n || between 97 122 n || (n =? 95)%N
  || (n =? 170)%N || (n =? 178)%N || (n =? 179)%N || (n =? 181)%N
  || (n =? 185)%N || (n =? 186)%N || between 188 190 n
  || between 192 214 n || between 216 246 n || between 248 255 n.

(** [str.lower] on one character: A-Z and the capital letters of Latin-1. *)
Definition lower_char (c : ascii) : ascii :=
  let n := code c in
  if between 65 90 n || (between 192 222 n && negb (n =? 215)%N)
  then ascii_of_N (n + 32)
  else c.

Fixpoint lower (s : string) : string :=
  match s with
  | EmptyString => EmptyString
  | String c s' => String (lower_char c) (lower s')
  end.

(** [s.endswith(suffix)]: some tail of [s] is [suffix]. *)
Fixpoint endswith (s suffix : string) : bool :=
  if String.eqb s suffix then true
  else match s with
       | EmptyString => false
       | String _ s' => endswith s' suffix
       end.

(** Truth value of a [str], and of a value that is [None] or a [str]. *)
Definition str_truthy (s : string) : bool := negb (String.eqb s "").

Definition opt_str_truthy (o : option string) : bool :=
  match o with
  | None => false
  | Some s => str_truthy s
  end.

(** [str.encode()], UTF-8: one byte below U+0080, two bytes up to U+00FF. *)
Definition byte_of_N (n : N) : byte :=
  match Byte.of_N n with
  | Some b => b
  | None => Byte.x00
  end.

Definition encode_char (c : ascii) : list byte :=
  let n := code c in
  if (n <? 128)%N then [byte_of_N n]
  else [byte_of_N (192 + n / 64); byte_of_N (128 + n mod 64)].

Fixpoint encode (s : string) : list byte :=
  match s with
  | EmptyString => []
  | String c s' => encode_char c ++ encode s'
  end.

End Py.

Declare Scope prog_scope.
Delimit Scope prog_scope with prog.
Notation "'let*' x ':=' m 'in' k" :=
  (Py.bind m (fun x => k))
  (at level 10, x name, m at level 200, k at level 200) : prog_scope.
Notation "m ';;;' k" :=
  (Py.bind m (fun _ => k))
  (at level 100, k at level 200, right associativity) : prog_scope.

(** ** Regular expressions *)

(** The fragment of Python's [re] that the patterns of [webview.py] use:
    character classes, literal characters, greedy [*] and [+] on a class,
    one capture group, [^] and [$].  [re_match] is [Pattern.match]: the
    pattern is tried at the start of the string only, quantifiers are greedy
    and give characters back one at a time when the rest fails. *)
Module Re.
Import Py.

Inductive cls : Type :=
| Dot                                  (* [.]: anything but a newline *)
| Word                                 (* [\w] *)
| Chr (c : ascii)                      (* a literal character *)
| Ranges (rs : list (ascii * ascii)).  (* [[a-zA-Z]] *)

Inductive node : Type :=
| One (c : cls)
| Star (c : cls)
| Plus (c : cls)
| Open       (* [(] of group 1 *)
| Close      (* [)] of group 1 *)
| Bol        (* [^] *)
| Eol.       (* [$] *)

Definition newline : ascii := ascii_of_N 10.

Definition cls_match (c : cls) (x : ascii) : bool :=
  match c with
  | Dot => negb (Ascii.eqb x newline)
  | Word => is_word x
  | Chr y => Ascii.eqb x y
  | Ranges rs => existsb (fun r => between (code (fst r)) (code (snd r)) (code x)) rs
  end.

(** The matcher's registers: whether the position is still the start of
    the string, whether group 1 is open, and the text of group 1 so far. *)
Record regs : Type := Regs {
  at_start : bool;
  in_group : bool;
  group1 : string
}.

(** One character [x] consumed. *)
Definition consume (x : ascii) (r : regs) : regs :=
  {| at_start := false;
     in_group := in_group r;
     group1 := if in_group r then group1 r +:+ String x "" else group1 r |}.

(** Greedy repetition of a class, then the continuation [k]; on failure of
    the longer match the shorter one is tried. *)
Fixpoint star (c : cls) (k : string -> regs -> option string)
         (s : string) (r : regs) : option string :=
  match s with
  | String x s' =>
      if cls_match c x then
        match star c k s' (consume x r) with
        | Some g => Some g
        | None => k s r
        end
      else k s r
  | EmptyString => k s r
  end.

(** [exec p s r]: match the nodes [p] against [s]; the result is the text
    of group 1. *)
Fixpoint exec (p : list node) (s : string) (r : regs) : option string :=
  match p with
  | [] => Some (group1 r)
  | One c :: p' =>
      match s with
      | String x s' => if cls_match c x then exec p' s' (consume x r) else None
      | EmptyString => None
      end
  | Star c :: p' => star c (exec p') s r
  | Plus c :: p' =>
      match s with
      | String x s' =>
          if cls_match c x then star c (exec p') s' (consume x r) else None
      | EmptyString => None
      end
  | Open :: p' =>
      exec p' s {| at_start := at_start r; in_group := true; group1 := "" |}
  | Close :: p' =>
      exec p' s {| at_start := at_start r; in_group := false; group1 := group1 r |}
  | Bol :: p' => if at_start r then exec p' s r else None
  | Eol :: p' =>
      (* the end of the string, or just before a newline that ends it *)
      if String.eqb s "" || String.eqb s (String newline "")
      then exec p' s r else None
  end.

(** [pattern.match(s)], giving [m.group(1)] of the match. *)
Definition re_match (p : list node) (s : string) : option string :=
  exec p s {| at_start := true; in_group := false; group1 := "" |}.

(** A run of literal characters. *)
Fixpoint lit (s : string) : list node :=
  match s with
  | EmptyString => []
  | String c s' => One (Chr c) :: lit s'
  end.

(** *** Vocabulary for stating what a match is *)

(** Every character of [s] is in the class [c]. *)
Fixpoint all_in (c : cls) (s : string) : bool :=
  match s with
  | EmptyString => true
  | String x s' => cls_match c x && all_in c s'
  end.

(** The character [c] occurs in [s]. *)
Fixpoint occurs (c : ascii) (s : string) : bool :=
  match s with
  | EmptyString => false
  | String x s' => Ascii.eqb x c || occurs c s'
  end.

(** The registers after the characters of [s] are consumed. *)
Fixpoint consume_all (s : string) (r : regs) : regs :=
  match s with
  | EmptyString => r
  | String x s' => consume_all s' (consume x r)
  end.

End Re.

(** ** webview.py *)
Module Webview.
Import Py Re.

(** [EXTMAN_URL_SCHEME = b'extman'] *)
Definition EXTMAN_URL_SCHEME : list byte := encode "extman".

(** [WINDOWS_PATH_PATTERN]: [^], a slash, then group 1: one letter of
    [[a-zA-Z]], a backslash (the raw string spells it with two, the regular
    expression of one literal backslash), a colon, and [.] repeated. *)
Definition WINDOWS_PATH_PATTERN : list node :=
  [Bol; One (Chr "/"%char); Open;
   One (Ranges [("a"%char, "z"%char); ("A"%char, "Z"%char)]);
   One (Chr "\"%char); One (Chr ":"%char); Star Dot; Close].

(** [ACTION_URL_PATTERN = re.compile(r".*/action\.(\w+)$")] *)
Definition ACTION_URL_PATTERN : list node :=
  Star Dot :: lit "/action." ++ [Open; Plus Word; Close; Eol].

(** *** The Qt objects the bridge touches *)

(** A [QUrl], with the items [QUrlQuery(url).queryItems()] gives. *)
Record QUrl : Type := {
  scheme : string;
  host : string;
  path : string;
  queryItems : list (string * string)
}.

(** [QUrl.isLocalFile]: the scheme is [file]. *)
Definition isLocalFile (u : QUrl) : bool := String.eqb (scheme u) "file".

Definition setPath (p : string) (u : QUrl) : QUrl :=
  {| scheme := scheme u; host := host u; path := p;
     queryItems := queryItems u |}.

Inductive NavigationType : Type :=
| NavigationTypeLink
| NavigationTypeTyped
| NavigationTypeFormSubmitted
| NavigationTypeBackForward
| NavigationTypeReload
| NavigationTypeOther
| NavigationTypeRedirect.

Definition is_link (n : NavigationType) : bool :=
  match n with NavigationTypeLink => true | _ => false end.

Record QWebEngineUrlRequestInfo : Type := {
  navigationType : NavigationType;
  requestUrl : QUrl
}.

(** A [QBuffer]: its byte array, the position of the device and whether it
    is open. *)
Record QBuffer : Type := {
  buf_data : list byte;
  buf_pos : nat;
  buf_open : bool
}.

(** [QtCore.QBuffer()] *)
Definition QBuffer_new : QBuffer :=
  {| buf_data := []; buf_pos := 0; buf_open := false |}.

(** [buf.open(QIODevice.WriteOnly)]: the array is kept, the position is 0. *)
Definition QBuffer_open (b : QBuffer) : QBuffer :=
  {| buf_data := buf_data b; buf_pos := 0; buf_open := true |}.

(** [buf.write(d)]: on an open device the bytes go to the current position,
    over what is there and past the end; a closed device writes nothing. *)
Definition QBuffer_write (d : list byte) (b : QBuffer) : QBuffer :=
  if buf_open b then
    {| buf_data := take (buf_pos b) (buf_data b) ++ d
                   ++ drop (buf_pos b + length d) (buf_data b);
       buf_pos := buf_pos b + length d;
       buf_open := true |}
  else b.

(** [buf.seek(p)] *)
Definition QBuffer_seek (p : nat) (b : QBuffer) : QBuffer :=
  if buf_open b && (p <=? length (buf_data b))%nat then
    {| buf_data := buf_data b; buf_pos := p; buf_open := true |}
  else b.

(** [buf.close()] *)
Definition QBuffer_close (b : QBuffer) : QBuffer :=
  {| buf_data := buf_data b; buf_pos := 0; buf_open := false |}.

(** What the bridge does to the outside world. *)
Inductive event : Type :=
| RequestHandler (p : string) (action : option string)
                 (params : gmap string string)
    (* [self.requestHandler(path, action, params, request, response)] *)
| Reply (content_type : list byte) (device : QBuffer)
    (* [request.reply(content_type, device)] *)
| Print (line : string)
    (* [print(line)] *)
| InterseptLink (info : QWebEngineUrlRequestInfo).
    (* [self.owner.interseptLink(info)] *)

Definition emit (e : event) : prog (list event) unit :=
  fun tr => (tr ++ [e], Ok tt).

Definition emit_all (es : list event) : prog (list event) unit :=
  fun tr => (tr ++ es, Ok tt).

(** *** class Response *)

(** A [Response] holds the buffer it writes to; its request is the one of
    the call of [requestStarted] that made it, and [request.reply] shows as
    a [Reply] event. *)
Record Response : Type := { buffer : QBuffer }.

(** [Response.write(data)]: [self.buffer.write(data.encode())] *)
Definition Response_write (data : string) (r : Response) : Response :=
  {| buffer := QBuffer_write (encode data) (buffer r) |}.

(** [Response.send(content_type)] *)
Definition Response_send (content_type : string) (r : Response)
  : Response * event :=
  let b := QBuffer_seek 0 (buffer r) in
  let b := QBuffer_close b in
  ({| buffer := b |}, Reply (encode content_type) b).

(** *** What the bridge is given *)

(** The functions of the host that the bridge calls.  [requestHandler] is
    the callable given to [SchemeHandler]: it gets the path, the action, the
    parameters and the response (the request shows in the replies it sends);
    what it does to the bridge is the list of its [request.reply] calls, in
    order, and its outcome.  [interseptLink] is the owner's method. *)
Record Host : Type := {
  unquote : string -> string;             (* [urllib.parse.unquote] *)
  fix_win_path : string -> string;        (* [utils.fix_win_path] *)
  path_exists : string -> bool;           (* [os.path.exists] *)
  open_read : string -> res (list byte);  (* [open(p, 'rb')] then [f.read()] *)
  requestHandler :
    string -> option string -> gmap string string -> Response
    -> list (list byte * QBuffer) * res unit;
  interseptLink : QWebEngineUrlRequestInfo -> res unit
}.

(** *** class UrlRequestInterceptor *)

(** [UrlRequestInterceptor.interceptRequest(info)] *)
Definition interceptRequest (h : Host) (info : QWebEngineUrlRequestInfo)
  : prog (list event) unit :=
  (if is_link (navigationType info) then
     let url := requestUrl info in
     (* Fix windows path *)
     let url :=
       if negb (str_truthy (host url)) && isLocalFile url then
         match re_match WINDOWS_PATH_PATTERN (path url) with
         | Some g => setPath g url
         | None => url
         end
       else url in
     (* Filter *)
     if String.eqb (scheme url) "extman" then
       emit (InterseptLink info) ;;;
       lift (interseptLink h info)
     else ret tt
   else ret tt)%prog.

(** *** class SchemeHandler *)

(** [{k: unquote(v) for k, v in query.queryItems()}] *)
Definition params_of (h : Host) (items : list (string * string))
  : gmap string string :=
  foldl (fun m kv => <[fst kv := unquote h (snd kv)]> m) ∅ items.

Definition content_type_of (file_path : string) : string :=
  if endswith file_path ".svg" then "image/svg+xml"
  else if endswith file_path ".png" then "image/png"
  else if endswith file_path ".jpg" then "image/jpeg"
  else if endswith file_path ".css" then "text/css"
  else if endswith file_path ".js" then "text/javascript"
  else "text/plain".

(** [SchemeHandler.requestStarted(request)], for a request with the url
    [url].  (The two [destroyed.connect] calls only schedule the deletion of
    the buffer and of the response with the request.) *)
Definition requestStarted (h : Host) (url : QUrl) : prog (list event) unit :=
  (* Parse Url *)
  let path := path url in
  let params := params_of h (queryItems url) in
  (* Prepare response buffer *)
  let buf := QBuffer_open QBuffer_new in
  (* Match Action *)
  let action := re_match ACTION_URL_PATTERN path in
  (if endswith path ".html" || opt_str_truthy action then
     (* Prepare Response object *)
     let response := {| buffer := buf |} in
     (* Call handler to do the real work *)
     emit (RequestHandler path action params) ;;;
     let out := requestHandler h path action params response in
     emit_all (map (fun r => Reply (fst r) (snd r)) (fst out)) ;;;
     lift (snd out)
   else
     let file_path := fix_win_path h path in
     if path_exists h file_path then
       let* data := lift (open_read h file_path) in
       let file_path := lower path in
       let buf := QBuffer_write data buf in
       let buf := QBuffer_seek 0 buf in
       let buf := QBuffer_close buf in
       let content_type := content_type_of file_path in
       emit (Reply (encode content_type) buf)
     else
       emit (Print ("Path does not exists: " +:+ file_path)))%prog.

(** *** Vocabulary for stating what the bridge does *)

(** The value of the last item of [items] whose key is [k]. *)
Definition last_value (k : string) (items : list (string * string))
  : option string :=
  foldl (fun acc kv => if String.eqb (fst kv) k then Some (snd kv) else acc)
        None items.

(** The condition under which [requestStarted] calls the handler. *)
Definition dispatches (p : string) : bool :=
  endswith p ".html" || opt_str_truthy (re_match ACTION_URL_PATTERN p).

(** The response [requestStarted] hands to the handler. *)
Definition fresh_response : Response :=
  {| buffer := QBuffer_open QBuffer_new |}.

(** [response.write(s)] for each [s] of [ws], in order. *)
Definition write_all (ws : list string) (r : Response) : Response :=
  foldl (fun r s => Response_write s r) r ws.

End Webview.

(** ** protocol/flags.py *)
Module Flags.
Import Py.

(** Objects are named by their location in the heap. *)
Abbreviation loc := positive.

(** A package record, as far as the module reads and writes it:
    [pkg.flags] is [None] or a dictionary. *)
Record PackageInfo : Type := {
  type : string;
  name : string;
  flags : option loc
}.

(** The heap: the flag dictionaries ([flagId -> True]), the database
    dictionaries ([key -> flag dictionary]) and the package records. *)
Record heap : Type := {
  dicts : gmap loc (gmap string bool);
  dbs : gmap loc (gmap string loc);
  pkgs : gmap loc PackageInfo
}.

(** The process: the heap, the entry of [functools.lru_cache] for
    [get_flags_database] (the value of the call that returned), and how many
    times [flags.json] has been read. *)
Record process : Type := {
  mem : heap;
  cache : option loc;
  reads : nat
}.

Definition start : process :=
  {| mem := {| dicts := ∅; dbs := ∅; pkgs := ∅ |}; cache := None; reads := 0 |}.

(** What [json.load] gives for [flags.json]: the items of a dictionary, in
    the order of the file; each flag is a dictionary from ["Mod"] and
    ["Macro"] to lists of names. *)
Abbreviation flag_entry := (gmap string (list string)).

(** The resource [data/flags.json] at the time of a call: [open] raises,
    or the file is read and [json.load] raises, or it is read and parsed. *)
Inductive resource : Type :=
| Unreadable (e : exn)
| Malformed (e : exn)
| Parsed (data : list (string * flag_entry)).

(** Truth value of a dictionary. *)
Definition dict_truthy {V} (d : gmap string V) : bool :=
  negb (Nat.eqb (size d) 0).

(** ["{0}:{1}".format(mtype, name.lower())] *)
Definition key_of (mtype name : string) : string :=
  mtype +:+ ":" +:+ lower name.

(** [itertools.chain(((m, 'Mod') for m in mods), ((m, 'Macro') for m in macros))] *)
Definition items_of (flag : flag_entry) : list (string * string) :=
  let mods := default [] (flag !! "Mod") in
  let macros := default [] (flag !! "Macro") in
  map (fun m => (m, "Mod")) mods ++ map (fun m => (m, "Macro")) macros.

(** The body of the inner loop, for one [(name, mtype)]: the dictionary
    already under the key is changed in place, or a new one is made. *)
Definition add_item (flagId : string) (st : heap * gmap string loc)
           (item : string * string) : heap * gmap string loc :=
  let h := fst st in
  let db := snd st in
  let key := key_of (snd item) (fst item) in
  match db !! key with
  | Some l =>
      ({| dicts := alter (fun d => <[flagId := true]> d) l (dicts h);
          dbs := dbs h; pkgs := pkgs h |},
       <[key := l]> db)
  | None =>
      let l := fresh (dom (dicts h)) in
      ({| dicts := <[l := {[flagId := true]}]> (dicts h);
          dbs := dbs h; pkgs := pkgs h |},
       <[key := l]> db)
  end.

(** The two loops over [data.items()], from [db = {}]. *)
Definition load_flags (data : list (string * flag_entry)) (h : heap)
  : heap * gmap string loc :=
  foldl (fun st entry => foldl (add_item (fst entry)) st (items_of (snd entry)))
        (h, ∅) data.

(** [get_flags_database()], under [@functools.lru_cache()]: a call that
    returned is answered from the cache; otherwise the body runs, and only a
    value it returns is cached. *)
Definition get_flags_database (file : resource) : prog process loc :=
  fun p =>
    match cache p with
    | Some l => (p, Ok l)
    | None =>
        match file with
        | Unreadable e => (p, Raise e)
        | Malformed e =>
            ({| mem := mem p; cache := None; reads := S (reads p) |}, Raise e)
        | Parsed data =>
            let st := load_flags data (mem p) in
            let h := fst st in
            let l := fresh (dom (dbs h)) in
            ({| mem := {| dicts := dicts h; dbs := <[l := snd st]> (dbs h);
                          pkgs := pkgs h |};
                cache := Some l;
                reads := S (reads p) |},
             Ok l)
        end
    end.

(** Reading an attribute of an object that is not there. *)
Definition AttributeError (what : string) : exn :=
  OtherError "AttributeError" what.

Definition the {A} (what : string) (o : option A) : prog process A :=
  match o with
  | Some a => ret a
  | None => throw (AttributeError what)
  end.

Definition set_flags (pkg : loc) (info : PackageInfo) (fl : loc)
  : prog process unit :=
  modify (fun p =>
    {| mem := {| dicts := dicts (mem p); dbs := dbs (mem p);
                 pkgs := <[pkg := {| type := type info; name := name info;
                                     flags := Some fl |}]> (pkgs (mem p)) |};
       cache := cache p; reads := reads p |}).

(** [d.update(found)] on the dictionary at [l] *)
Definition update_dict (l : loc) (found : gmap string bool)
  : prog process unit :=
  modify (fun p =>
    {| mem := {| dicts := alter (fun d => found ∪ d) l (dicts (mem p));
                 dbs := dbs (mem p); pkgs := pkgs (mem p) |};
       cache := cache p; reads := reads p |}).

(** [apply_predefined_flags(pkg)]; the result is the object returned. *)
Definition apply_predefined_flags (file : resource) (pkg : loc)
  : prog process loc :=
  (let* p0 := get in
   let* info := the "type" (pkgs (mem p0) !! pkg) in
   let package_type :=
     if String.eqb (type info) "Workbench" then "Mod" else type info in
   let* dbl := get_flags_database file in
   let* p1 := get in
   let* db := the "get" (dbs (mem p1) !! dbl) in
   match db !! key_of package_type (name info) with
   | None => ret pkg                (* [flags = []] *)
   | Some fl =>
       let* found := the "flags" (dicts (mem p1) !! fl) in
       if dict_truthy found then
         match flags info with
         | None => set_flags pkg info fl ;;; ret pkg
         | Some l =>
             let* mine := the "flags" (dicts (mem p1) !! l) in
             if dict_truthy mine
             then update_dict l found ;;; ret pkg
             else set_flags pkg info fl ;;; ret pkg
         end
       else ret pkg
   end)%prog.

(** A package record made by the rest of the program. *)
Definition new_package (info : PackageInfo) : prog process loc :=
  fun p =>
    let l := fresh (dom (pkgs (mem p))) in
    ({| mem := {| dicts := dicts (mem p); dbs := dbs (mem p);
                  pkgs := <[l := info]> (pkgs (mem p)) |};
        cache := cache p; reads := reads p |}, Ok l).

(** *** Vocabulary for stating what the module does *)

(** Every entry of the database [db] is a dictionary of the heap that is
    not empty. *)
Definition entries_ok (h : heap) (db : gmap string loc) : Prop :=
  forall k fl, db !! k = Some fl ->
    exists d, dicts h !! fl = Some d /\ dict_truthy d = true.

(** The state of the two loops of [get_flags_database] when they started
    from the heap [h0]: the packages, the databases and the dictionaries of
    [h0] are as they were, and the entries made so far are new dictionaries
    that are not empty. *)
Definition loaded_over (h0 : heap) (st : heap * gmap string loc) : Prop :=
  pkgs (fst st) = pkgs h0
  /\ dbs (fst st) = dbs h0
  /\ (forall l, is_Some (dicts h0 !! l) -> dicts (fst st) !! l = dicts h0 !! l)
  /\ (forall k fl, snd st !! k = Some fl ->
        dicts h0 !! fl = None
        /\ exists d, dicts (fst st) !! fl = Some d /\ dict_truthy d = true).

(** The references of the process are to objects of the heap: the cached
    database and its entries, and the flags of the packages. *)
Definition wf (p : process) : Prop :=
  (forall l, cache p = Some l ->
     exists db, dbs (mem p) !! l = Some db /\ entries_ok (mem p) db)
  /\ (forall pkg info l,
        pkgs (mem p) !! pkg = Some info -> flags info = Some l ->
        is_Some (dicts (mem p) !! l)).

(** Successive calls of [get_flags_database], the resource being [f] at the
    time of each: the process they leave and what each gave. *)
Fixpoint calls (files : list resource) (p : process)
  : process * list (res loc) :=
  match files with
  | [] => (p, [])
  | f :: fs =>
      let out := get_flags_database f p in
      let rest := calls fs (fst out) in
      (fst rest, snd out :: snd rest)
  end.

(** The key under which [apply_predefined_flags] looks a package up. *)
Definition package_key (info : PackageInfo) : string :=
  key_of (if String.eqb (type info) "Workbench" then "Mod" else type info)
         (name info).

End Flags.

(** ** protocol/http.py *)
Module Http.
Import Py.

(** The Python values the module computes with. *)
#[warnings="-register-all"]
Inductive pyval : Type :=
| VNone
| VInt (z : Z)
| VStr (s : string)
| VBytes (b : list byte)
| VList (l : list pyval).

Definition int_of_byte (b : byte) : pyval := VInt (Z.of_N (Byte.to_N b)).

Fixpoint chars (s : string) : list pyval :=
  match s with
  | EmptyString => []
  | String c s' => VStr (String c "") :: chars s'
  end.

Definition TypeError (what : string) : exn := OtherError "TypeError" what.

(** [data += p] *)
Definition iadd (data p : pyval) : res pyval :=
  match data, p with
  | VStr a, VStr b => Ok (VStr (a +:+ b))
  | VBytes a, VBytes b => Ok (VBytes (a ++ b))
  | VList a, VBytes b => Ok (VList (a ++ map int_of_byte b))
  | VList a, VStr b => Ok (VList (a ++ chars b))
  | VList a, VList b => Ok (VList (a ++ b))
  | _, _ => Raise (TypeError "unsupported operand type(s) for +=")
  end.

(** Truth value of the [decode] argument, a codec name or [None]. *)
Definition decode_truthy (decode : option string) : bool :=
  opt_str_truthy decode.

(** [request.Request(url, headers=headers or {})] *)
Record Request : Type := {
  req_url : string;
  req_headers : gmap string string
}.

Definition headers_or_empty (headers : option (gmap string string))
  : gmap string string :=
  match headers with
  | Some h => if negb (Nat.eqb (size h) 0) then h else ∅
  | None => ∅
  end.

(** The object [urlopen] returns, as the results of its successive
    [read(block)] calls; after them [read] gives [b""]. *)
Abbreviation stream := (list (res (list byte))).

(** [request.ProxyHandler(proxies)] *)
Record ProxyHandler : Type := { proxies : gmap string (option string) }.

(** What [getSslHandler] returns. *)
Inductive SslHandler : Type :=
| HTTPSHandler     (* [request.HTTPSHandler(context=ssl_ctx)] *)
| EmptyDict.       (* [{}] *)

(** What the module does to the outside world. *)
Inductive event : Type :=
| Log (args : list string)                       (* [log(...)] *)
| UrlOpen (req : Request) (timeout : Z)          (* [request.urlopen(...)] *)
| FileWrite (path : string) (data : list byte).  (* [localFile.write(p)] *)

(** The module's global [request_initialized], and the trace. *)
Record session : Type := {
  request_initialized : bool;
  trace : list event
}.

Definition emit (e : event) : prog session unit :=
  fun s => ({| request_initialized := request_initialized s;
               trace := trace s ++ [e] |}, Ok tt).

(** What the module is given: the host's preference group
    [BaseApp/Preferences/Addons], the standard library and the file system. *)
Record Env : Type := {
  pref_bool : gmap string bool;       (* the booleans stored in the group *)
  pref_string : gmap string string;   (* the strings stored in the group *)
  getproxies : gmap string string;    (* [request.getproxies()] *)
  ssl_ctx : bool;                     (* truth value of the global [ssl_ctx] *)
  build_opener : ProxyHandler -> SslHandler -> res unit;
                                      (* [build_opener], then [install_opener] *)
  Request_init : string -> gmap string string -> res unit;
                                      (* [request.Request(url, headers=...)]:
                                         the constructor parses the url *)
  urlopen : Request -> Z -> res stream;
  decode_bytes : string -> list byte -> res string;   (* [p.decode(codec)] *)
  format_exc : exn -> string;         (* [traceback.format_exc()] *)
  open_wb : string -> res unit;       (* [open(path, 'wb')] *)
  file_write : string -> nat -> list byte -> res unit;
                                      (* [localFile.write(p)] after [n] bytes *)
  file_close : string -> nat -> res unit
                                      (* leaving [with open(...)] after [n] bytes *)
}.

(** [pref.GetBool(name, default)], [pref.GetString(name, default)] *)
Definition GetBool (env : Env) (name : string) (dflt : bool) : bool :=
  default dflt (pref_bool env !! name).

Definition GetString (env : Env) (name : string) (dflt : string) : string :=
  default dflt (pref_string env !! name).

(** The local [proxies] of [getProxyConf] when the [if] statement is left:
    [None] when no branch assigned it. *)
Definition proxies_local (env : Env) : option (gmap string (option string)) :=
  if GetBool env "NoProxyCheck" true then
    Some ∅
  else
    if GetBool env "SystemProxyCheck" false then
      let proxy := getproxies env in
      Some (<["https" := proxy !! "http"]> (<["http" := proxy !! "http"]> ∅))
    else if GetBool env "UserProxyCheck" false then
      let proxy := GetString env "ProxyUrl" "" in
      Some (<["https" := Some proxy]> (<["http" := Some proxy]> ∅))
    else None.

(** [getProxyConf()]: reading a local that was never assigned raises. *)
Definition getProxyConf (env : Env) : res ProxyHandler :=
  match proxies_local env with
  | Some p => Ok {| proxies := p |}
  | None => Raise (UnboundLocalError "proxies")
  end.

(** [getSslHandler()] *)
Definition getSslHandler (env : Env) : SslHandler :=
  if ssl_ctx env then HTTPSHandler else EmptyDict.

(** [urllibInit()] *)
Definition urllibInit (env : Env) : prog session unit :=
  (let* s := get in
   if negb (request_initialized s) then
     let* proxy_support := lift (getProxyConf env) in
     let handler := getSslHandler env in
     lift (build_opener env proxy_support handler) ;;;
     modify (fun s => {| request_initialized := true; trace := trace s |})
   else ret tt)%prog.

Definition is_empty (p : list byte) : bool :=
  match p with [] => true | _ => false end.

(** The [while True] loop of [httpGet] over the reads still to come: the
    value of the local [data] when the loop is left, and how it is left. *)
Fixpoint get_loop (env : Env) (decode : option string) (f : stream)
         (data : pyval) : pyval * res unit :=
  match f with
  | [] => (data, Ok tt)
  | Raise e :: _ => (data, Raise e)
  | Ok p :: f' =>
      if is_empty p then (data, Ok tt)
      else
        (* [if isinstance(p, bytes) and decode: p = p.decode(decode)] *)
        let decoded :=
          match decode with
          | Some codec =>
              if str_truthy codec
              then match decode_bytes env codec p with
                   | Ok s => Ok (VStr s)
                   | Raise e => Raise e
                   end
              else Ok (VBytes p)
          | None => Ok (VBytes p)
          end in
        match decoded with
        | Raise e => (data, Raise e)
        | Ok p' =>
            match iadd data p' with
            | Raise e => (data, Raise e)
            | Ok data' => get_loop env decode f' data'
            end
        end
  end.

(** The two [except] clauses shared by [httpGet] and [httpDownload]. *)
Definition except_log (env : Env) (url : string) (e : exn)
  : prog session unit :=
  match e with
  | URLError reason => emit (Log [url; reason])
  | _ => emit (Log [format_exc env e])
  end.

(** [httpGet(url, headers, timeout, decode)] *)
Definition httpGet (env : Env) (url : string)
           (headers : option (gmap string string)) (timeout : Z)
           (decode : option string) : prog session pyval :=
  (urllibInit env ;;;
   (* [data = None], then the [try] statement: the request is made first,
      then [urlopen] is called with it *)
   match Request_init env url (headers_or_empty headers) with
   | Raise e => except_log env url e ;;; ret VNone
   | Ok _ =>
       let req :=
         {| req_url := url; req_headers := headers_or_empty headers |} in
       emit (UrlOpen req timeout) ;;;
       let out :=
         match urlopen env req timeout with
         | Raise e => (VNone, Raise e)
         | Ok f =>
             let data := if decode_truthy decode then VStr "" else VList [] in
             get_loop env decode f data
         end in
       match snd out with
       | Ok _ => ret (fst out)
       | Raise e => except_log env url e ;;; ret (fst out)
       end
   end)%prog.

(** The [while True] loop of [httpDownload], [n] bytes being written
    already: the number of bytes written when the loop is left. *)
Fixpoint download_loop (env : Env) (path : string) (f : stream) (n : nat)
  : prog session nat :=
  match f with
  | [] => ret n
  | Raise e :: _ => throw e
  | Ok p :: f' =>
      if is_empty p then ret n
      else
        (lift (file_write env path n p) ;;;
         emit (FileWrite path p) ;;;
         download_loop env path f' (n + length p))%prog
  end.

(** [httpDownload(url, path, headers, timeout)] *)
Definition httpDownload (env : Env) (url path : string)
           (headers : option (gmap string string)) (timeout : Z)
  : prog session bool :=
  (urllibInit env ;;;
   let req := {| req_url := url; req_headers := headers_or_empty headers |} in
   try_except
     (lift (Request_init env url (headers_or_empty headers)) ;;;
      emit (UrlOpen req timeout) ;;;
      let* f := lift (urlopen env req timeout) in
      lift (open_wb env path) ;;;
      let* n := download_loop env path f 0 in
      (* [return True] leaves the [with] statement, which closes the file *)
      lift (file_close env path n) ;;;
      ret true)
     (fun e => except_log env url e ;;; ret false))%prog.

(** *** Vocabulary for stating what the module does *)

(** The reads of [f] give the chunks [chunks], none of them empty, and then
    the end of the stream. *)
Definition reads_all (f : stream) (chunks : list (list byte)) : Prop :=
  Forall (fun c => c <> []) chunks
  /\ (f = map Ok chunks \/ exists rest, f = map Ok chunks ++ Ok [] :: rest).

(** The chunks [chunks] add up to the value [body]: the list of their bytes
    when [decode] is not true, the string of their decodings when it is a
    codec and they all decode. *)
Definition accumulates (env : Env) (decode : option string)
           (chunks : list (list byte)) (body : pyval) : Prop :=
  match decode with
  | Some codec =>
      if str_truthy codec then
        exists strs,
          Forall2 (fun c s => decode_bytes env codec c = Ok s) chunks strs
          /\ body = VStr (String.concat "" strs)
      else body = VList (map int_of_byte (concat chunks))
  | None => body = VList (map int_of_byte (concat chunks))
  end.

(** The number of [urlopen] calls in a trace. *)
Definition is_fetch (e : event) : bool :=
  match e with UrlOpen _ _ => true | _ => false end.

Definition fetches (tr : list event) : nat := length (List.filter is_fetch tr).

(** The request [httpGet] and [httpDownload] make. *)
Definition request_of (url : string) (headers : option (gmap string string))
  : Request :=
  {| req_url := url; req_headers := headers_or_empty headers |}.

(** Writing the chunks [chunks] to the file at [path], [n] bytes being
    written already, succeeds at every chunk. *)
Fixpoint writes_ok (env : Env) (path : string) (n : nat)
         (chunks : list (list byte)) : Prop :=
  match chunks with
  | [] => True
  | c :: cs =>
      file_write env path n c = Ok tt
      /\ writes_ok env path (n + length c) cs
  end.

(** The request is made and opened, and the whole remote stream, the
    chunks [chunks], is read and written to the local file. *)
Definition download_ok (env : Env) (url path : string)
           (headers : option (gmap string string)) (timeout : Z)
           (chunks : list (list byte)) : Prop :=
  exists f,
    Request_init env url (headers_or_empty headers) = Ok tt
    /\ urlopen env {| req_url := url; req_headers := headers_or_empty headers |}
               timeout = Ok f
    /\ reads_all f chunks
    /\ open_wb env path = Ok tt
    /\ writes_ok env path 0 chunks
    /\ file_close env path (length (concat chunks)) = Ok tt.

(** What the [except] clauses log for [e]. *)
Definition logged (env : Env) (url : string) (e : exn) : event :=
  match e with
  | URLError reason => Log [url; reason]
  | _ => Log [format_exc env e]
  end.

End Http.

(** ** Concrete hosts and inputs *)
Module Examples.
Import Py.

(** A host for the bridge in which every path exists and opening one fails,
    as it does for a directory. *)
Definition directory_host : Webview.Host :=
  {| Webview.unquote := fun s => s;
     Webview.fix_win_path := fun s => s;
     Webview.path_exists := fun _ => true;
     Webview.open_read := fun p => Raise (OtherError "IsADirectoryError" p);
     Webview.requestHandler := fun _ _ _ _ => ([], Ok tt);
     Webview.interseptLink := fun _ => Ok tt |}.

(** A host whose handler answers every request with a page. *)
Definition page_host : Webview.Host :=
  {| Webview.unquote := fun s => s;
     Webview.fix_win_path := fun s => s;
     Webview.path_exists := fun _ => false;
     Webview.open_read := fun p => Raise (OtherError "FileNotFoundError" p);
     Webview.requestHandler := fun _ _ _ response =>
       let sent :=
         Webview.Response_send "text/html"
           (Webview.write_all ["<html>"; "</html>"] response) in
       match snd sent with
       | Webview.Reply ct b => ([(ct, b)], Ok tt)
       | _ => ([], Ok tt)
       end;
     Webview.interseptLink := fun _ => Ok tt |}.

Definition install_url : Webview.QUrl :=
  {| Webview.scheme := "extman"; Webview.host := "";
     Webview.path := "/extman/action.install";
     Webview.queryItems := [("pkg", "a"); ("pkg", "b"); ("channel", "x")] |}.

Definition tmp_url : Webview.QUrl :=
  {| Webview.scheme := "extman"; Webview.host := "";
     Webview.path := "/tmp"; Webview.queryItems := [] |}.

Definition extman_link : Webview.QWebEngineUrlRequestInfo :=
  {| Webview.navigationType := Webview.NavigationTypeLink;
     Webview.requestUrl := install_url |}.

(** A [flags.json]. *)
Definition flags_json : list (string * gmap string (list string)) :=
  [("obsolete", {["Mod" := ["A2plus"; "Defeaturing"]]});
   ("py2only", <["Macro" := ["Foo"]]> {["Mod" := ["a2PLUS"]]})].

Definition json_error : exn := OtherError "JSONDecodeError" "Expecting value".

(** A process with one workbench that has no flags yet. *)
Definition a2plus : Flags.PackageInfo :=
  {| Flags.type := "Workbench"; Flags.name := "A2Plus"; Flags.flags := None |}.

Definition one_package : Flags.process :=
  fst (Flags.new_package a2plus Flags.start).

(** What [Request] checks of a url (one with no blanks around it, no
    [<...>] or [URL:] wrapping and no fragment): it has a type when it
    starts with one or more characters other than [/] and [:], followed by
    [:]. *)
Fixpoint has_type_from (seen : bool) (url : string) : bool :=
  match url with
  | EmptyString => false
  | String c rest =>
      if Ascii.eqb c ":" then seen
      else if Ascii.eqb c "/" then false
      else has_type_from true rest
  end.

Definition has_type (url : string) : bool := has_type_from false url.

Definition ValueError (what : string) : exn := OtherError "ValueError" what.

(** Environments of the HTTP helper: the base one has no preference stored
    and a server that cannot be reached. *)
Definition env_with (prefs : gmap string bool)
           (open_url : Http.Request -> Z -> res Http.stream) : Http.Env :=
  {| Http.pref_bool := prefs;
     Http.pref_string := ∅;
     Http.getproxies := ∅;
     Http.ssl_ctx := true;
     Http.build_opener := fun _ _ => Ok tt;
     Http.Request_init := fun url _ =>
       if has_type url then Ok tt
       else Raise (ValueError ("unknown url type: '" +:+ url +:+ "'"));
     Http.urlopen := open_url;
     Http.decode_bytes := fun _ b => Ok (string_of_list_byte b);
     Http.format_exc := fun _ => "Traceback (most recent call last)";
     Http.open_wb := fun _ => Ok tt;
     Http.file_write := fun _ _ _ => Ok tt;
     Http.file_close := fun _ _ => Ok tt |}.

Definition unreachable : Http.Request -> Z -> res Http.stream :=
  fun _ _ => Raise (URLError "unreachable").

(** A server whose answer breaks off after the first chunk. *)
Definition broken_off : Http.Request -> Z -> res Http.stream :=
  fun _ _ => Ok [Ok (list_byte_of_string "ab"); Raise (URLError "timed out")].

(** A server that answers in two chunks. *)
Definition two_chunks : Http.Request -> Z -> res Http.stream :=
  fun _ _ => Ok [Ok (list_byte_of_string "ab"); Ok (list_byte_of_string "c")].

(** The preferences in which no proxy choice is checked. *)
Definition no_choice : gmap string bool := {["NoProxyCheck" := false]}.

Definition new_session : Http.session :=
  {| Http.request_initialized := false; Http.trace := [] |}.

End Examples.


(** ** Vocabulary for the further properties *)
Module More.
Import Py.

(** The longest prefix of [s] whose characters are in the class [c], and
    the rest of [s]. *)
Fixpoint span (c : Re.cls) (s : string) : string * string :=
  match s with
  | EmptyString => (EmptyString, EmptyString)
  | String x s' =>
      if Re.cls_match c x
      then (String x (fst (span c s')), snd (span c s'))
      else (EmptyString, s)
  end.

(** A letter of [[a-zA-Z]]. *)
Definition is_letter (x : ascii) : bool :=
  between 97 122 (code x) || between 65 90 (code x).

(** What [flags.json] says: under the flag [flagId], the list of the
    modules (["Mod"]) or of the macros (["Macro"]) has a name that, in lower
    case and after the type and a colon, is [key]. *)
Definition listed (data : list (string * gmap string (list string)))
           (key flagId : string) : Prop :=
  exists flag mtype names name,
    (flagId, flag) ∈ data
    /\ (mtype = "Mod" \/ mtype = "Macro")
    /\ flag !! mtype = Some names
    /\ name ∈ names
    /\ key = mtype +:+ ":" +:+ lower name.

(** The database [snd st] has the flag [flagId] under the key [key]. *)
Definition has_flag (st : Flags.heap * gmap string Flags.loc)
           (key flagId : string) : Prop :=
  exists fl d,
    snd st !! key = Some fl
    /\ Flags.dicts (fst st) !! fl = Some d
    /\ d !! flagId = Some true.

(** The items of the two loops of [get_flags_database], in the order the
    loops meet them: the flag and a [(name, mtype)] of it. *)
Definition flat (data : list (string * gmap string (list string)))
  : list (string * (string * string)) :=
  flat_map (fun entry => map (pair (fst entry)) (Flags.items_of (snd entry)))
           data.

(** What holds of the database while the loops run, the items [seen] being
    done: no two keys share a dictionary, every entry is a dictionary of the
    heap, every flag in an entry is [True] and comes from an item done, and
    every item done is in the database. *)
Definition content_inv (seen : list (string * (string * string)))
           (st : Flags.heap * gmap string Flags.loc) : Prop :=
  (forall k1 k2 l, snd st !! k1 = Some l -> snd st !! k2 = Some l -> k1 = k2)
  /\ (forall key fl, snd st !! key = Some fl ->
        is_Some (Flags.dicts (fst st) !! fl))
  /\ (forall key fl d flagId v,
        snd st !! key = Some fl -> Flags.dicts (fst st) !! fl = Some d ->
        d !! flagId = Some v ->
        v = true
        /\ exists x, x ∈ seen /\ fst x = flagId
                     /\ Flags.key_of (snd (snd x)) (fst (snd x)) = key)
  /\ (forall x, x ∈ seen ->
        has_flag st (Flags.key_of (snd (snd x)) (fst (snd x))) (fst x)).

(** The flags of the package [pkg] in the heap [h]: the dictionary
    [pkg.flags] refers to, and no flag when it is [None]. *)
Definition flags_of (h : Flags.heap) (pkg : Flags.loc) : gmap string bool :=
  match Flags.pkgs h !! pkg with
  | Some info =>
      match Flags.flags info with
      | Some l => default ∅ (Flags.dicts h !! l)
      | None => ∅
      end
  | None => ∅
  end.

(** A host that serves one file. *)
Definition file_host (name : string) (content : list byte) : Webview.Host :=
  {| Webview.unquote := fun s => s;
     Webview.fix_win_path := fun s => s;
     Webview.path_exists := fun p => String.eqb p name;
     Webview.open_read := fun p =>
       if String.eqb p name then Ok content
       else Raise (OtherError "FileNotFoundError" p);
     Webview.requestHandler := fun _ _ _ _ => ([], Ok tt);
     Webview.interseptLink := fun _ => Ok tt |}.

Definition file_url (p : string) : Webview.QUrl :=
  {| Webview.scheme := "extman"; Webview.host := "";
     Webview.path := p; Webview.queryItems := [] |}.

(** A second package with the key of [Examples.a2plus], spelt as a module. *)
Definition a2plus_mod : Flags.PackageInfo :=
  {| Flags.type := "Mod"; Flags.name := "a2plus"; Flags.flags := None |}.

Definition two_packages : Flags.process :=
  fst (Flags.new_package a2plus_mod Examples.one_package).

End More.

(* ===================================================================== *)
(** * Part II: what the program does                                      *)
(* ===================================================================== *)

(** ** Strings *)
Section Strings.
Import Py.

Lemma str_app_nil_l (s : string) : "" +:+ s = s.
Proof. reflexivity. Qed.

Lemma str_app_cons c (a b : string) : String c a +:+ b = String c (a +:+ b).
Proof. reflexivity. Qed.

Lemma str_app_nil_r (a : string) : a +:+ "" = a.
Proof. induction a as [|c a IH]; [reflexivity|]. rewrite str_app_cons, IH. reflexivity. Qed.

Lemma str_app_assoc (a b c : string) : (a +:+ b) +:+ c = a +:+ (b +:+ c).
Proof.
  induction a as [|x a IH]; [reflexivity|].
  rewrite !str_app_cons, IH. reflexivity.
Qed.

Lemma endswith_eq (s suffix : string) :
  endswith s suffix =
  if String.eqb s suffix then true
  else match s with
       | EmptyString => false
       | String _ s' => endswith s' suffix
       end.
Proof. destruct s; reflexivity. Qed.

Lemma endswith_iff (s suffix : string) :
  endswith s suffix = true <-> exists pre, s = pre +:+ suffix.
Proof.
  induction s as [|c s IH]; rewrite endswith_eq.
  - destruct (String.eqb_spec "" suffix) as [<-|Hne].
    + split; [intros _; exists ""; reflexivity | intros _; reflexivity].
    + split; [discriminate|]. intros [pre Hpre].
      destruct pre; [rewrite str_app_nil_l in Hpre; congruence | discriminate].
  - destruct (String.eqb_spec (String c s) suffix) as [<-|Hne].
    + split; [intros _; exists ""; reflexivity | intros _; reflexivity].
    + rewrite IH. split.
      * intros [pre ->]. exists (String c pre). reflexivity.
      * intros [pre Hpre]. destruct pre as [|c' pre].
        -- rewrite str_app_nil_l in Hpre. congruence.
        -- rewrite str_app_cons in Hpre. injection Hpre as _ ->. eauto.
Qed.

Lemma str_concat_cons (s : string) (strs : list string) :
  String.concat "" (s :: strs) = s +:+ String.concat "" strs.
Proof.
  destruct strs; [|reflexivity]. cbn [String.concat].
  symmetry. apply str_app_nil_r.
Qed.

End Strings.

(** ** Regular expressions *)
Section Regex.
Import Py Re.

(** The registers after a run of characters. *)
Lemma consume_all_app s1 s2 r :
  consume_all (s1 +:+ s2) r = consume_all s2 (consume_all s1 r).
Proof.
  revert r. induction s1 as [|x s1 IH]; intros r; [reflexivity|].
  rewrite str_app_cons. simpl. apply IH.
Qed.

Lemma consume_all_group1 s r :
  in_group r = true -> group1 (consume_all s r) = group1 r +:+ s.
Proof.
  revert r. induction s as [|x s IH]; simpl; intros r Hr.
  - symmetry. apply str_app_nil_r.
  - rewrite IH by exact Hr. simpl. rewrite Hr.
    rewrite str_app_assoc. reflexivity.
Qed.

(** A match of a starred class splits the string. *)
Lemma star_sound c k s r g :
  star c k s r = Some g ->
  exists s1 s2, s = s1 +:+ s2 /\ all_in c s1 = true
                /\ k s2 (consume_all s1 r) = Some g.
Proof.
  revert r. induction s as [|x s IH]; simpl; intros r H.
  - exists "", "". auto.
  - destruct (cls_match c x) eqn:Hx.
    + destruct (star c k s (consume x r)) as [g'|] eqn:Hs.
      * injection H as ->. apply IH in Hs as (s1 & s2 & -> & Hall & Hk).
        exists (String x s1), s2. simpl. rewrite Hx. auto.
      * exists "", (String x s). auto.
    + exists "", (String x s). auto.
Qed.

Lemma exec_lit_sound l p s r g :
  exec (lit l ++ p) s r = Some g ->
  exists s', s = l +:+ s' /\ exec p s' (consume_all l r) = Some g.
Proof.
  revert s r. induction l as [|c l IH]; simpl; intros s r H.
  - eauto.
  - destruct s as [|x s]; [discriminate|].
    destruct (Ascii.eqb_spec x c) as [->|]; [|discriminate].
    apply IH in H as (s' & -> & H). eauto.
Qed.

(** The other direction: when some split lets the rest match, the starred
    class matches (maybe with a longer split). *)
Lemma star_complete c k s1 s2 r g :
  all_in c s1 = true ->
  k s2 (consume_all s1 r) = Some g ->
  exists g', star c k (s1 +:+ s2) r = Some g'.
Proof.
  revert r. induction s1 as [|x s1 IH]; intros r Hall Hk.
  - rewrite str_app_nil_l. simpl in Hk. destruct s2 as [|y s2]; simpl.
    + eauto.
    + destruct (cls_match c y); [|eauto].
      destruct (star c k s2 (consume y r)); eauto.
  - rewrite str_app_cons. simpl in *.
    apply andb_true_iff in Hall as [Hx Hall]. rewrite Hx.
    destruct (IH _ Hall Hk) as [g' ->]. eauto.
Qed.

Lemma exec_lit_complete l p s r :
  exec (lit l ++ p) (l +:+ s) r = exec p s (consume_all l r).
Proof.
  revert r. induction l as [|c l IH]; intros r; [reflexivity|].
  rewrite str_app_cons. simpl. rewrite Ascii.eqb_refl. apply IH.
Qed.

Lemma occurs_app c a b : occurs c (a +:+ b) = occurs c a || occurs c b.
Proof.
  induction a as [|x a IH]; [reflexivity|].
  rewrite str_app_cons. simpl. rewrite IH, orb_assoc. reflexivity.
Qed.

Lemma word_has_no (c : ascii) (n : string) :
  is_word c = false -> all_in Word n = true -> occurs c n = false.
Proof.
  intros Hc. induction n as [|x n IH]; simpl; [reflexivity|].
  intros H. apply andb_true_iff in H as [Hx Hn]. rewrite (IH Hn), orb_false_r.
  destruct (Ascii.eqb_spec x c) as [->|]; [congruence|reflexivity].
Qed.

(** The text after the last occurrence of a character is determined. *)
Lemma after_last_unique c a a' X X' :
  occurs c X = false -> occurs c X' = false ->
  a +:+ String c X = a' +:+ String c X' -> X = X'.
Proof.
  intros HX HX'. revert a'. induction a as [|x a IH]; intros [|x' a'] H.
  - rewrite !str_app_nil_l in H. congruence.
  - rewrite str_app_nil_l, str_app_cons in H. injection H as <- ->.
    rewrite occurs_app in HX. simpl in HX.
    rewrite Ascii.eqb_refl, orb_true_r in HX. discriminate.
  - rewrite str_app_nil_l, str_app_cons in H. injection H as -> <-.
    rewrite occurs_app in HX'. simpl in HX'.
    rewrite Ascii.eqb_refl, orb_true_r in HX'. discriminate.
  - rewrite !str_app_cons in H. injection H as _ H. eauto.
Qed.

(** A word followed by nothing or by a newline is determined by the whole. *)
Lemma word_tail_unique n n' t t' :
  all_in Word n = true -> all_in Word n' = true ->
  t = "" \/ t = String newline "" ->
  t' = "" \/ t' = String newline "" ->
  n +:+ t = n' +:+ t' -> n = n'.
Proof.
  assert (Hnl : is_word newline = false) by reflexivity.
  revert n'. induction n as [|x n IH]; intros [|x' n'] Hn Hn' Ht Ht' H.
  - reflexivity.
  - exfalso. rewrite str_app_nil_l, str_app_cons in H. simpl in Hn'.
    apply andb_true_iff in Hn' as [Hx' _].
    destruct Ht as [->| ->]; [discriminate|].
    injection H as <- _. congruence.
  - exfalso. rewrite str_app_nil_l, str_app_cons in H. simpl in Hn.
    apply andb_true_iff in Hn as [Hx _].
    destruct Ht' as [->| ->]; [discriminate|].
    injection H as -> _. congruence.
  - rewrite !str_app_cons in H. injection H as -> H. simpl in Hn, Hn'.
    apply andb_true_iff in Hn as [_ Hn]. apply andb_true_iff in Hn' as [_ Hn'].
    f_equal. eauto.
Qed.

End Regex.

(** ** webview.py: the action pattern *)
Section ActionPattern.
Import Py Re Webview.

(** What a match of [ACTION_URL_PATTERN] says about the path. *)
Lemma action_match_sound (p name : string) :
  re_match ACTION_URL_PATTERN p = Some name ->
  exists pre tail,
    p = pre +:+ "/action." +:+ name +:+ tail
    /\ all_in Dot pre = true
    /\ name <> "" /\ all_in Word name = true
    /\ (tail = "" \/ tail = String newline "").
Proof.
  unfold re_match, ACTION_URL_PATTERN. cbn [exec].
  intros H. apply star_sound in H as (pre & s2 & -> & Hpre & H).
  apply exec_lit_sound in H as (s3 & -> & H).
  cbn [exec] in H.
  destruct s3 as [|x s3]; [discriminate|].
  destruct (cls_match Word x) eqn:Hx; [|discriminate].
  apply star_sound in H as (w & tail & -> & Hw & H).
  cbn [exec] in H.
  destruct (String.eqb tail "" || String.eqb tail (String newline "")) eqn:Ht;
    [|discriminate].
  injection H as <-. cbn [group1].
  rewrite consume_all_group1 by reflexivity.
  change (group1 _ +:+ w) with (String x w).
  exists pre, tail. split; [reflexivity|].
  split; [exact Hpre|]. split; [discriminate|]. split.
  - simpl. simpl in Hx. rewrite Hx. exact Hw.
  - apply orb_true_iff in Ht as [Ht|Ht]; apply String.eqb_eq in Ht; auto.
Qed.

(** A name and the end of the path match the end of the pattern. *)
Lemma name_matches (name tail : string) (r : regs) :
  name <> "" -> all_in Word name = true ->
  tail = "" \/ tail = String newline "" ->
  exists g, exec [Open; Plus Word; Close; Eol] (name +:+ tail) r = Some g.
Proof.
  intros Hne Hname Htail. destruct name as [|x w]; [contradiction|].
  simpl in Hname. apply andb_true_iff in Hname as [Hx Hw].
  rewrite str_app_cons. cbn [exec].
  change (cls_match Word x) with (is_word x). rewrite Hx.
  eapply star_complete; [exact Hw|]. cbn [exec].
  assert (Ht : String.eqb tail "" || String.eqb tail (String newline "") = true).
  { destruct Htail as [->| ->]; reflexivity. }
  rewrite Ht. reflexivity.
Qed.

(** A path of that shape matches. *)
Lemma action_match_some (pre name tail : string) :
  all_in Dot pre = true ->
  name <> "" -> all_in Word name = true ->
  tail = "" \/ tail = String newline "" ->
  exists g,
    re_match ACTION_URL_PATTERN (pre +:+ "/action." +:+ name +:+ tail) = Some g.
Proof.
  intros Hpre Hne Hname Htail. unfold re_match, ACTION_URL_PATTERN. cbn [exec].
  destruct (name_matches name tail
              (consume_all "/action."
                 (consume_all pre
                    {| at_start := true; in_group := false; group1 := "" |}))
              Hne Hname Htail) as [g Hg].
  eapply star_complete; [exact Hpre|].
  rewrite exec_lit_complete. exact Hg.
Qed.

Lemma action_match_complete (pre name tail : string) :
  all_in Dot pre = true ->
  name <> "" -> all_in Word name = true ->
  tail = "" \/ tail = String newline "" ->
  re_match ACTION_URL_PATTERN (pre +:+ "/action." +:+ name +:+ tail)
  = Some name.
Proof.
  intros Hpre Hne Hname Htail.
  destruct (action_match_some pre name tail Hpre Hne Hname Htail) as [g Hg].
  rewrite Hg. f_equal.
  apply action_match_sound in Hg
    as (pre' & tail' & Heq & _ & _ & Hg & Htail').
  assert (Hdot : is_word "."%char = false) by reflexivity.
  assert (Hno : forall n t, all_in Word n = true ->
                  t = "" \/ t = String newline "" ->
                  occurs "." (n +:+ t) = false).
  { intros n t Hn Ht. rewrite occurs_app, (word_has_no _ _ Hdot Hn).
    destruct Ht as [->| ->]; reflexivity. }
  assert (Hsplit : forall a n t,
            a +:+ "/action." +:+ n +:+ t
            = (a +:+ "/action") +:+ String "." (n +:+ t)).
  { intros a n t. rewrite str_app_assoc. reflexivity. }
  rewrite !Hsplit in Heq.
  apply after_last_unique in Heq; [|auto..].
  symmetry. exact (word_tail_unique _ _ _ _ Hname Hg Htail Htail' Heq).
Qed.

(** The condition of [requestStarted] on the action is that the pattern
    matched: the group of a match is never empty. *)
Lemma action_truthy (p : string) :
  opt_str_truthy (re_match ACTION_URL_PATTERN p)
  = bool_decide (is_Some (re_match ACTION_URL_PATTERN p)).
Proof.
  destruct (re_match ACTION_URL_PATTERN p) as [name|] eqn:H; simpl.
  - apply action_match_sound in H as (_ & _ & _ & _ & Hne & _).
    unfold str_truthy. destruct (String.eqb_spec name ""); [contradiction|].
    reflexivity.
  - reflexivity.
Qed.

Lemma dispatches_iff (p : string) :
  dispatches p = true
  <-> endswith p ".html" = true \/ is_Some (re_match ACTION_URL_PATTERN p).
Proof.
  unfold dispatches. rewrite action_truthy, orb_true_iff, bool_decide_eq_true.
  reflexivity.
Qed.

(** A path matches the action pattern exactly when it is a prefix without
    newline, then [/action.], then a name of one or more word characters,
    then the end of the string or one newline before it; the action is that
    name. *)
Theorem action_pattern_matches (p name : string) :
  re_match ACTION_URL_PATTERN p = Some name
  <-> exists pre tail,
        p = pre +:+ "/action." +:+ name +:+ tail
        /\ all_in Dot pre = true
        /\ name <> "" /\ all_in Word name = true
        /\ (tail = "" \/ tail = String newline "").
Proof.
  split; [apply action_match_sound|].
  intros (pre & tail & -> & Hpre & Hne & Hname & Htail).
  apply action_match_complete; assumption.
Qed.

End ActionPattern.

(** ** webview.py: the scheme handler and the interceptor *)
Section Bridge.
Import Py Re Webview.

Variable h : Host.

Lemma params_of_lookup_from items (m : gmap string string)
      (acc : option string) k :
  m !! k = unquote h <$> acc ->
  foldl (fun m kv => <[fst kv := unquote h (snd kv)]> m) m items !! k
  = unquote h <$>
      foldl (fun acc kv => if String.eqb (fst kv) k then Some (snd kv) else acc)
            acc items.
Proof.
  revert m acc. induction items as [|[k' v] items IH]; simpl; intros m acc H.
  - exact H.
  - apply IH. destruct (String.eqb_spec k' k) as [->|Hne].
    + rewrite lookup_insert_eq. reflexivity.
    + rewrite lookup_insert_ne by exact Hne. exact H.
Qed.

(** The dictionary has, under each key, the decoded value of the last item
    with that key. *)
Lemma params_of_lookup items k :
  params_of h items !! k = unquote h <$> last_value k items.
Proof. apply params_of_lookup_from. rewrite lookup_empty. reflexivity. Qed.

(** The events [requestStarted] adds to the trace, and its outcome. *)
Lemma requestStarted_run url tr :
  let p := path url in
  let action := re_match ACTION_URL_PATTERN p in
  let params := params_of h (queryItems url) in
  requestStarted h url tr =
  if dispatches p then
    let out := requestHandler h p action params fresh_response in
    (tr ++ RequestHandler p action params
        :: map (fun r => Reply (fst r) (snd r)) (fst out),
     snd out)
  else if path_exists h (fix_win_path h p) then
    match open_read h (fix_win_path h p) with
    | Ok data =>
        (tr ++ [Reply (encode (content_type_of (lower p)))
                      (QBuffer_close (QBuffer_seek 0
                         (QBuffer_write data (QBuffer_open QBuffer_new))))],
         Ok tt)
    | Raise e => (tr, Raise e)
    end
  else (tr ++ [Print ("Path does not exists: " +:+ fix_win_path h p)], Ok tt).
Proof.
  intros p action params. unfold requestStarted, dispatches.
  fold p. fold action. fold params.
  destruct (endswith p ".html" || opt_str_truthy action).
  - unfold bind, emit, emit_all, lift. cbn [fst snd].
    rewrite <- app_assoc. simpl.
    destruct (requestHandler h p action params _) as [evs [[]|e]]; reflexivity.
  - destruct (path_exists h (fix_win_path h p)); [|reflexivity].
    unfold bind, lift, emit.
    destruct (open_read h (fix_win_path h p)); reflexivity.
Qed.

Lemma reply_is_not_call (rs : list (list byte * QBuffer)) p a ps :
  RequestHandler p a ps ∉ map (fun r => Reply (fst r) (snd r)) rs.
Proof.
  intros H. apply list_elem_of_In, in_map_iff in H as (r & Hr & _). discriminate.
Qed.

(** When the path does not dispatch, the handler is not called. *)
Lemma requestStarted_static url tr :
  dispatches (path url) = false ->
  exists evs,
    fst (requestStarted h url tr) = tr ++ evs
    /\ forall p' a ps, RequestHandler p' a ps ∉ evs.
Proof.
  intros Hd. pose proof (requestStarted_run url tr) as Hrun.
  cbv zeta in Hrun. rewrite Hd in Hrun. rewrite Hrun.
  destruct (path_exists h (fix_win_path h (path url))).
  - destruct (open_read h (fix_win_path h (path url))) as [data|e'].
    + eexists. split; [reflexivity|]. intros p' a ps Hin.
      apply list_elem_of_singleton in Hin. discriminate.
    + exists []. split; [symmetry; apply app_nil_r|].
      intros p' a ps Hin. apply elem_of_nil in Hin. exact Hin.
  - eexists. split; [reflexivity|]. intros p' a ps Hin.
    apply list_elem_of_singleton in Hin. discriminate.
Qed.

(** C1. For every request given to [requestStarted], the request handler is
    called if and only if the path of the url ends with [.html] or matches
    the action pattern, that is, it is a prefix without newline, then
    [/action.], then a name of word characters, then the end of the path
    (or one newline before it).  The handler gets the path, the action,
    which is that name when the pattern matched, and the dictionary of the
    query items, in which each key has the decoded value of its last
    item. *)
Theorem requestStarted_dispatch (url : QUrl) (tr : list event) :
  let p := path url in
  let action := re_match ACTION_URL_PATTERN p in
  let params := params_of h (queryItems url) in
  exists evs,
    fst (requestStarted h url tr) = tr ++ evs
    /\ ((exists p' a ps, RequestHandler p' a ps ∈ evs)
        <-> (endswith p ".html" = true \/ is_Some action))
    /\ (forall p' a ps, RequestHandler p' a ps ∈ evs ->
          p' = p /\ a = action /\ ps = params)
    /\ (forall name,
          action = Some name
          <-> exists pre tail,
                p = pre +:+ "/action." +:+ name +:+ tail
                /\ all_in Dot pre = true
                /\ name <> "" /\ all_in Word name = true
                /\ (tail = "" \/ tail = String newline ""))
    /\ (forall k, params !! k = unquote h <$> last_value k (queryItems url)).
Proof.
  intros p action params.
  pose proof (requestStarted_run url tr) as Hrun. cbv zeta in Hrun.
  fold p in Hrun. fold action in Hrun. fold params in Hrun.
  pose proof (dispatches_iff p) as Hd. fold action in Hd.
  assert (Hrest :
    (forall name,
       action = Some name
       <-> exists pre tail,
             p = pre +:+ "/action." +:+ name +:+ tail
             /\ all_in Dot pre = true
             /\ name <> "" /\ all_in Word name = true
             /\ (tail = "" \/ tail = String newline ""))
    /\ (forall k, params !! k = unquote h <$> last_value k (queryItems url))).
  { split; [|apply params_of_lookup].
    intros name. split; [apply action_match_sound|].
    intros (pre & tail & Hp & Hpre & Hne & Hname & Htail).
    subst action. rewrite Hp. apply action_match_complete; assumption. }
  destruct (dispatches p) eqn:Hdisp.
  - eexists. split; [rewrite Hrun; reflexivity|].
    split; [|split; [|exact Hrest]].
    + split; [intros _; apply Hd; reflexivity|].
      intros _. exists p, action, params. apply list_elem_of_here.
    + intros p' a ps Hin. apply elem_of_cons in Hin as [Heq|Hin].
      * injection Heq as E1 E2 E3. rewrite E1, E2, E3. auto.
      * exfalso. eapply reply_is_not_call, Hin.
  - destruct (requestStarted_static url tr Hdisp) as (evs & Hevs & Hno).
    exists evs.
    split; [exact Hevs|]. split; [|split; [|exact Hrest]].
    + split.
      * intros (p' & a & ps & Hin). exfalso. eapply Hno, Hin.
      * intros H. apply Hd in H. discriminate.
    + intros p' a ps Hin. exfalso. eapply Hno, Hin.
Qed.

(** *** The interceptor *)

Lemma interceptRequest_run info tr :
  interceptRequest h info tr =
  if is_link (navigationType info)
     && String.eqb (scheme (requestUrl info)) "extman"
  then (tr ++ [InterseptLink info], interseptLink h info)
  else (tr, Ok tt).
Proof.
  unfold interceptRequest.
  destruct (is_link (navigationType info)); [|reflexivity].
  set (url := requestUrl info).
  assert (Hs : forall fixed,
            fixed = (if negb (str_truthy (host url)) && isLocalFile url
                     then match re_match WINDOWS_PATH_PATTERN (path url) with
                          | Some g => setPath g url
                          | None => url
                          end
                     else url) ->
            scheme fixed = scheme url).
  { intros fixed ->.
    destruct (negb (str_truthy (host url)) && isLocalFile url); [|reflexivity].
    destruct (re_match WINDOWS_PATH_PATTERN (path url)); reflexivity. }
  rewrite (Hs _ eq_refl). cbn [andb].
  destruct (String.eqb (scheme url) "extman"); reflexivity.
Qed.

(** C8. [interceptRequest] hands a request to the owner's [interseptLink]
    when its navigation type is a link navigation and the scheme of its url
    is [extman] (the fix of a Windows path leaves the scheme as it is);
    every other request passes: nothing is forwarded and nothing else
    happens. *)
Theorem interceptRequest_forwards (info : QWebEngineUrlRequestInfo)
        (tr : list event) :
  (navigationType info = NavigationTypeLink
   /\ scheme (requestUrl info) = "extman" ->
   interceptRequest h info tr
   = (tr ++ [InterseptLink info], interseptLink h info))
  /\ (~ (navigationType info = NavigationTypeLink
         /\ scheme (requestUrl info) = "extman") ->
      interceptRequest h info tr = (tr, Ok tt)).
Proof.
  rewrite interceptRequest_run. split.
  - intros [-> ->]. reflexivity.
  - intros Hn.
    destruct (navigationType info) eqn:Hnav; cbn [is_link andb]; try reflexivity.
    destruct (String.eqb_spec (scheme (requestUrl info)) "extman") as [Hs|];
      [|reflexivity].
    exfalso. apply Hn. split; [reflexivity|exact Hs].
Qed.

(** *** Failures *)

(** C2, as the code has it.  The bridge catches nothing: an exception
    raised by the request handler, by opening or reading a file that
    exists, or by the owner's link handler leaves the callback, and nothing
    is logged for it.  [requestStarted] raises in exactly the first two
    cases and [interceptRequest] in exactly the third; when the file cannot
    be read the trace is as it was.  The one failure the bridge answers
    itself is a path that does not exist: it prints a line, sends no reply
    and returns. *)
Theorem bridge_failures_propagate (url : QUrl)
        (info : QWebEngineUrlRequestInfo) (tr : list event) (e : exn) :
  let p := path url in
  let file_path := fix_win_path h p in
  (snd (requestStarted h url tr) = Raise e
   <-> (dispatches p = true
        /\ snd (requestHandler h p (re_match ACTION_URL_PATTERN p)
                  (params_of h (queryItems url)) fresh_response) = Raise e)
       \/ (dispatches p = false /\ path_exists h file_path = true
           /\ open_read h file_path = Raise e))
  /\ (dispatches p = false /\ path_exists h file_path = true
      /\ open_read h file_path = Raise e ->
      requestStarted h url tr = (tr, Raise e))
  /\ (dispatches p = false /\ path_exists h file_path = false ->
      requestStarted h url tr
      = (tr ++ [Print ("Path does not exists: " +:+ file_path)], Ok tt))
  /\ (snd (interceptRequest h info tr) = Raise e
      <-> navigationType info = NavigationTypeLink
          /\ scheme (requestUrl info) = "extman"
          /\ interseptLink h info = Raise e).
Proof.
  intros p file_path.
  pose proof (requestStarted_run url tr) as Hrun. cbv zeta in Hrun.
  fold p in Hrun. fold file_path in Hrun. rewrite Hrun. clear Hrun.
  split; [split|split; [|split; [|split]]].
  - intros H. destruct (dispatches p); [left; split; [reflexivity|exact H]|].
    destruct (path_exists h file_path); [|discriminate].
    destruct (open_read h file_path); [discriminate|].
    right. repeat split. simpl in H. injection H as ->. reflexivity.
  - intros [[-> Hh]|(-> & -> & ->)]; [exact Hh|reflexivity].
  - intros (-> & -> & ->). reflexivity.
  - intros (-> & ->). reflexivity.
  - rewrite interceptRequest_run. intros H.
    destruct (navigationType info); try discriminate.
    cbn [is_link andb] in H.
    destruct (String.eqb_spec (scheme (requestUrl info)) "extman");
      [|discriminate].
    repeat split; assumption.
  - intros (Hn & Hs & Hi). rewrite interceptRequest_run, Hn, Hs. exact Hi.
Qed.

End Bridge.

(** *** The response buffer *)
Section ResponseBuffer.
Import Py Webview.

(** A write at the end of an open buffer appends. *)
Lemma QBuffer_write_end d b :
  buf_open b = true -> buf_pos b = length (buf_data b) ->
  QBuffer_write d b =
  {| buf_data := buf_data b ++ d;
     buf_pos := length (buf_data b ++ d);
     buf_open := true |}.
Proof.
  intros Ho Hp. unfold QBuffer_write. rewrite Ho, Hp.
  rewrite take_ge by lia. rewrite drop_ge by lia.
  rewrite app_nil_r, length_app. reflexivity.
Qed.

Lemma write_all_cons s ws r :
  write_all (s :: ws) r = write_all ws (Response_write s r).
Proof. reflexivity. Qed.

Lemma write_all_from (ws : list string) (r : Response) :
  buf_open (buffer r) = true ->
  buf_pos (buffer r) = length (buf_data (buffer r)) ->
  buffer (write_all ws r) =
  {| buf_data := buf_data (buffer r) ++ concat (map encode ws);
     buf_pos := length (buf_data (buffer r) ++ concat (map encode ws));
     buf_open := true |}.
Proof.
  revert r. induction ws as [|s ws IH]; intros r Ho Hp.
  - simpl. rewrite app_nil_r, <- Hp, <- Ho. destruct r as [[]]; reflexivity.
  - rewrite write_all_cons.
    assert (Hw : buffer (Response_write s r) =
                 {| buf_data := buf_data (buffer r) ++ encode s;
                    buf_pos := length (buf_data (buffer r) ++ encode s);
                    buf_open := true |}).
    { unfold Response_write. cbn [buffer]. apply QBuffer_write_end; assumption. }
    rewrite IH; rewrite Hw; cbn [buf_data buf_pos buf_open]; [|reflexivity..].
    simpl. rewrite <- app_assoc. reflexivity.
Qed.

(** C7. The response is a buffer of encoded strings: after the calls
    [write(s)] for the strings [ws], in that order, on the response that
    [requestStarted] made, [send(content_type)] replies with the encoded
    content type and with the buffer, which holds the encodings of the
    strings one after the other, is at position 0 and is closed. *)
Theorem Response_send_delivers (ws : list string) (content_type : string) :
  let b := {| buf_data := concat (map encode ws);
              buf_pos := 0; buf_open := false |} in
  Response_send content_type (write_all ws fresh_response)
  = ({| buffer := b |}, Reply (encode content_type) b).
Proof.
  intros b. unfold Response_send.
  rewrite write_all_from by reflexivity.
  unfold QBuffer_seek, QBuffer_close. simpl. reflexivity.
Qed.

End ResponseBuffer.

(** *** The bridge on concrete requests *)
Section BridgeExamples.
Import Py Re Webview Examples.

(** C2 as the claim has it fails: a path that exists and cannot be opened
    makes [requestStarted] raise, with nothing logged and no reply. *)
Lemma requestStarted_raises :
  requestStarted directory_host tmp_url []
  = ([], Raise (OtherError "IsADirectoryError" "/tmp")).
Proof. vm_compute. reflexivity. Qed.

(** An action request reaches the handler with its name and the last value
    of each parameter, and the handler's page is the reply. *)
Example requestStarted_install :
  exists params,
    requestStarted page_host install_url []
    = ([RequestHandler "/extman/action.install" (Some "install") params;
        Reply (encode "text/html")
              {| buf_data := encode "<html></html>";
                 buf_pos := 0; buf_open := false |}],
       Ok tt)
    /\ params !! "pkg" = Some "b" /\ params !! "channel" = Some "x".
Proof. eexists. split; [|split]; vm_compute; reflexivity. Qed.

Example interceptRequest_extman :
  interceptRequest page_host extman_link []
  = ([InterseptLink extman_link], Ok tt).
Proof. vm_compute. reflexivity. Qed.

End BridgeExamples.

(** ** protocol/flags.py *)
Section FlagsDatabase.
Import Py Flags.

Lemma dict_truthy_iff {V} (d : gmap string V) : dict_truthy d = true <-> d <> ∅.
Proof.
  unfold dict_truthy. rewrite negb_true_iff, Nat.eqb_neq.
  apply map_size_non_empty_iff.
Qed.

Lemma dict_truthy_insert {V} (d : gmap string V) k v :
  dict_truthy (<[k := v]> d) = true.
Proof. apply dict_truthy_iff, insert_non_empty. Qed.

Lemma dict_truthy_union {V} (d1 d2 : gmap string V) :
  dict_truthy d2 = true -> dict_truthy (d1 ∪ d2) = true.
Proof.
  rewrite !dict_truthy_iff. intros H2 Hu. apply H2.
  apply map_eq. intros i. rewrite lookup_empty.
  assert (Hi : (d1 ∪ d2) !! i = None) by (rewrite Hu; apply lookup_empty).
  apply lookup_union_None in Hi as [_ Hi]. exact Hi.
Qed.

Lemma lookup_insert_key {V} (db : gmap string V) k0 l k v :
  <[k0 := l]> db !! k = Some v -> (k0 = k /\ v = l) \/ db !! k = Some v.
Proof.
  destruct (decide (k0 = k)) as [<-|Hne].
  - rewrite lookup_insert_eq. intros [= <-]. auto.
  - rewrite lookup_insert_ne by exact Hne. auto.
Qed.

Lemma add_item_loaded h0 flagId st item :
  loaded_over h0 st -> loaded_over h0 (add_item flagId st item).
Proof.
  destruct st as [h db]. unfold loaded_over, add_item. cbn [fst snd].
  intros (Hp & Hd & Hold & Hnew).
  destruct (db !! key_of (snd item) (fst item)) as [l|] eqn:Hk;
    cbn [fst snd dicts dbs pkgs].
  - destruct (Hnew _ _ Hk) as (Hl0 & d & Hl & Hd1).
    refine (conj Hp (conj Hd (conj _ _))).
    + intros l' Hl'. rewrite lookup_alter_ne; [auto|].
      intros ->. rewrite Hl0 in Hl'. destruct Hl' as [? ?]; discriminate.
    + intros k fl Hin.
      assert (Hfl : db !! k = Some fl).
      { apply lookup_insert_key in Hin as [[<- ->]|Hin]; assumption. }
      apply Hnew in Hfl as (Hfl0 & d' & Hfl & Hd').
      split; [exact Hfl0|].
      destruct (decide (l = fl)) as [->|Hne].
      * rewrite lookup_alter_eq, Hfl. eexists. split; [reflexivity|].
        apply dict_truthy_insert.
      * rewrite lookup_alter_ne by exact Hne. eauto.
  - set (l := fresh (dom (dicts h))).
    assert (Hfresh : dicts h !! l = None).
    { apply not_elem_of_dom, is_fresh. }
    assert (Hl0 : dicts h0 !! l = None).
    { destruct (dicts h0 !! l) eqn:E; [|reflexivity].
      rewrite <- (Hold l) in E by (rewrite E; eauto). congruence. }
    refine (conj Hp (conj Hd (conj _ _))).
    + intros l' Hl'. rewrite lookup_insert_ne; [auto|].
      intros <-. rewrite Hl0 in Hl'. destruct Hl' as [? ?]; discriminate.
    + intros k fl Hin.
      apply lookup_insert_key in Hin as [[<- ->]|Hin].
      * split; [exact Hl0|]. rewrite lookup_insert_eq.
        eexists. split; [reflexivity|]. apply dict_truthy_insert.
      * apply Hnew in Hin as (Hfl0 & d & Hfl & Hd1).
        split; [exact Hfl0|].
        rewrite lookup_insert_ne; [eauto|]. intros <-. congruence.
Qed.

Lemma load_flags_loaded data h : loaded_over h (load_flags data h).
Proof.
  unfold load_flags.
  assert (H0 : loaded_over h (h, ∅)).
  { refine (conj eq_refl (conj eq_refl (conj (fun _ _ => eq_refl) _))).
    intros k fl Hin. cbn [snd] in Hin. rewrite lookup_empty in Hin. discriminate. }
  revert H0. generalize (h, ∅ : gmap string loc) as st.
  induction data as [|[flagId flag] data IH]; intros st Hst; [exact Hst|].
  cbn [foldl fst snd]. apply IH.
  revert Hst. generalize st as st0.
  induction (items_of flag) as [|item items IHi]; intros st0 Hst; [exact Hst|].
  cbn [foldl]. apply IHi, add_item_loaded, Hst.
Qed.

Lemma get_flags_database_hit file p l :
  cache p = Some l -> get_flags_database file p = (p, Ok l).
Proof. intros H. unfold get_flags_database. rewrite H. reflexivity. Qed.

(** What a call that returns leaves. *)
Lemma get_flags_database_returns file p p1 l :
  get_flags_database file p = (p1, Ok l) ->
  cache p1 = Some l
  /\ pkgs (mem p1) = pkgs (mem p)
  /\ (forall l', is_Some (dicts (mem p) !! l') ->
        dicts (mem p1) !! l' = dicts (mem p) !! l')
  /\ reads p1 <= S (reads p)
  /\ (wf p -> wf p1).
Proof.
  unfold get_flags_database. destruct (cache p) as [l0|] eqn:Hc.
  - intros [= <- <-]. auto 10.
  - destruct file as [e|e|data]; [discriminate..|].
    pose proof (load_flags_loaded data (mem p)) as (Hp & Hd & Hold & Hnew).
    set (st := load_flags data (mem p)) in *.
    intros [= <- <-]. cbn [cache mem pkgs dicts dbs reads].
    refine (conj eq_refl (conj Hp (conj Hold (conj (le_n _) _)))).
    intros [_ Hpk]. split; cbn [cache mem pkgs dicts dbs].
    + intros l [= <-]. exists (snd st). rewrite lookup_insert_eq.
      split; [reflexivity|]. intros k fl Hin. cbn [dicts].
      apply Hnew in Hin as (_ & Hin). exact Hin.
    + intros pkg info l Hin Hfl. rewrite Hp in Hin.
      rewrite Hold; eauto.
Qed.

(** A call that raises caches nothing. *)
Lemma get_flags_database_raises file p p1 e :
  get_flags_database file p = (p1, Raise e) ->
  cache p = None /\ cache p1 = None /\ mem p1 = mem p
  /\ reads p1 <= S (reads p).
Proof.
  unfold get_flags_database. destruct (cache p) as [l0|] eqn:Hc; [discriminate|].
  destruct file as [e'|e'|data]; [| |discriminate].
  - intros [= <- <-]. auto.
  - intros [= <- <-]. cbn. auto.
Qed.

Lemma calls_after_hit files p l :
  cache p = Some l -> calls files p = (p, replicate (length files) (Ok l)).
Proof.
  intros Hc. induction files as [|f fs IH]; [reflexivity|].
  cbn [calls]. rewrite (get_flags_database_hit f p l Hc). cbn [fst snd].
  rewrite IH. reflexivity.
Qed.

Lemma calls_shape files p :
  exists es n l,
    snd (calls files p) = map Raise es ++ replicate n (Ok l)
    /\ reads (fst (calls files p)) <= reads p + length es + 1.
Proof.
  revert p. induction files as [|f fs IH]; intros p.
  - exists [], 0, 1%positive. cbn. split; [reflexivity|lia].
  - cbn [calls].
    destruct (get_flags_database f p) as [p1 [l|e]] eqn:Hf; cbn [fst snd].
    + apply get_flags_database_returns in Hf as (Hc & _ & _ & Hr & _).
      rewrite (calls_after_hit fs p1 l Hc). cbn [fst snd].
      exists [], (S (length fs)), l. split; [reflexivity|]. cbn. lia.
    + apply get_flags_database_raises in Hf as (_ & _ & _ & Hr).
      destruct (IH p1) as (es & n & l & Hs & Hrd).
      exists (e :: es), n, l. rewrite Hs. split; [reflexivity|]. cbn. lia.
Qed.

(** C4, as the code has it.  [get_flags_database] is cached from the
    first call that returns: that call leaves its dictionary in the cache,
    and every later call returns that same dictionary and leaves the process
    as it is, so [flags.json] is not read again.  A call reads the resource
    at most once.  A call that raises caches nothing, so the next call runs
    the body again.  Over any sequence of calls, the calls that raise come
    first, all the others return one and the same dictionary, and the
    number of reads is at most one more than the number of calls that
    raised. *)
Theorem get_flags_database_cached (file : resource) (p : process) :
  let out := get_flags_database file p in
  reads (fst out) <= S (reads p)
  /\ (forall l, snd out = Ok l ->
        cache (fst out) = Some l
        /\ forall files,
             calls files (fst out)
             = (fst out, replicate (length files) (Ok l)))
  /\ (forall e, snd out = Raise e -> cache (fst out) = None)
  /\ (forall files, exists es n l,
        snd (calls files p) = map Raise es ++ replicate n (Ok l)
        /\ reads (fst (calls files p)) <= reads p + length es + 1).
Proof.
  intros out. subst out.
  destruct (get_flags_database file p) as [p1 [l|e]] eqn:Hf; cbn [fst snd].
  - pose proof (get_flags_database_returns _ _ _ _ Hf) as (Hc & _ & _ & Hr & _).
    split; [exact Hr|]. split; [|split; [discriminate|intros files; apply calls_shape]].
    intros l' [= <-]. split; [exact Hc|].
    intros files. apply calls_after_hit, Hc.
  - pose proof (get_flags_database_raises _ _ _ _ Hf) as (_ & Hc & _ & Hr).
    split; [exact Hr|]. split; [discriminate|].
    split; [intros _ _; exact Hc|intros files; apply calls_shape].
Qed.

Lemma alter_present {V} (f : V -> V) (m : gmap loc V) l v :
  m !! l = Some v -> alter f l m = <[l := f v]> m.
Proof.
  intros H. apply map_eq. intros i. destruct (decide (l = i)) as [<-|Hne].
  - rewrite lookup_alter_eq, lookup_insert_eq, H. reflexivity.
  - rewrite lookup_alter_ne, lookup_insert_ne by exact Hne. reflexivity.
Qed.

(** C3, as the code has it.  For a package [pkg] of a well-formed process,
    [apply_predefined_flags] first obtains the flags database; when that
    raises, the exception leaves [apply_predefined_flags] and nothing is
    returned.  Otherwise it returns [pkg] itself, having looked the
    database up under the key made of the type of the package, with
    [Workbench] read as [Mod], a colon, and its name in lower case.  With
    no entry under the key nothing changes.  With an entry, which is never
    empty: when [pkg.flags] is [None] or an empty dictionary, [pkg.flags]
    becomes the dictionary of the entry itself; otherwise the entries found
    are added to the dictionary [pkg.flags] refers to, in place. *)
Theorem apply_predefined_flags_merges
        (file : resource) (p : process) (pkg : loc) (info : PackageInfo) :
  wf p ->
  pkgs (mem p) !! pkg = Some info ->
  let key :=
    (if String.eqb (type info) "Workbench" then "Mod" else type info)
    +:+ ":" +:+ lower (name info) in
  match get_flags_database file p with
  | (p1, Raise e) => apply_predefined_flags file pkg p = (p1, Raise e)
  | (p1, Ok dbl) =>
      exists db p2,
        dbs (mem p1) !! dbl = Some db
        /\ pkgs (mem p1) = pkgs (mem p)
        /\ apply_predefined_flags file pkg p = (p2, Ok pkg)
        /\ cache p2 = cache p1 /\ reads p2 = reads p1
        /\ dbs (mem p2) = dbs (mem p1)
        /\ match db !! key with
           | None => p2 = p1
           | Some fl =>
               exists found,
                 dicts (mem p1) !! fl = Some found /\ found <> ∅
                 /\ match flags info with
                    | None =>
                        pkgs (mem p2)
                        = <[pkg := {| type := type info; name := name info;
                                      flags := Some fl |}]> (pkgs (mem p1))
                        /\ dicts (mem p2) = dicts (mem p1)
                    | Some l =>
                        exists mine,
                          dicts (mem p) !! l = Some mine
                          /\ if dict_truthy mine then
                               pkgs (mem p2) = pkgs (mem p1)
                               /\ dicts (mem p2)
                                  = <[l := found ∪ mine]> (dicts (mem p1))
                             else
                               pkgs (mem p2)
                               = <[pkg := {| type := type info;
                                             name := name info;
                                             flags := Some fl |}]>
                                   (pkgs (mem p1))
                               /\ dicts (mem p2) = dicts (mem p1)
                    end
           end
  end.
Proof.
  intros Hwf Hpkg key. change key with (package_key info). clear key.
  destruct (get_flags_database file p) as [p1 [dbl|e]] eqn:Hget.
  2:{ unfold apply_predefined_flags, bind, get, the.
      rewrite Hpkg. unfold ret at 1. rewrite Hget. reflexivity. }
  pose proof (get_flags_database_returns _ _ _ _ Hget)
    as (Hc & Hpk & Hold & _ & Hwf1).
  specialize (Hwf1 Hwf). destruct Hwf1 as [Hdb Hfl1].
  destruct (Hdb _ Hc) as (db & Hdbl & Hentries).
  exists db.
  unfold apply_predefined_flags, bind, get, the.
  rewrite Hpkg. unfold ret at 1. rewrite Hget. unfold ret at 1.
  rewrite Hdbl. unfold ret at 1. fold (package_key info).
  destruct (db !! package_key info) as [fl|] eqn:Hkey.
  - destruct (Hentries _ _ Hkey) as (found & Hfound & Htruthy).
    rewrite Hfound. unfold ret at 1. rewrite Htruthy.
    assert (Hne : found <> ∅) by (apply dict_truthy_iff, Htruthy).
    destruct (flags info) as [l|] eqn:Hfl.
    + destruct (proj2 Hwf _ _ _ Hpkg Hfl) as [mine Hmine].
      assert (Hmine1 : dicts (mem p1) !! l = Some mine).
      { rewrite Hold; [exact Hmine|]. rewrite Hmine. eauto. }
      rewrite Hmine1. unfold ret at 1.
      destruct (dict_truthy mine) eqn:Hm.
      * eexists. split; [reflexivity|]. split; [exact Hpk|].
        split; [reflexivity|]. cbn [cache reads mem dbs pkgs dicts].
        do 3 (split; [reflexivity|]).
        exists found. split; [first [exact Hfound|reflexivity]|]. split; [exact Hne|].
        exists mine. split; [exact Hmine|]. rewrite Hm.
        split; [reflexivity|]. apply alter_present, Hmine1.
      * eexists. split; [reflexivity|]. split; [exact Hpk|].
        split; [reflexivity|]. cbn [cache reads mem dbs pkgs dicts].
        do 3 (split; [reflexivity|]).
        exists found. split; [first [exact Hfound|reflexivity]|]. split; [exact Hne|].
        exists mine. split; [exact Hmine|]. rewrite Hm.
        split; reflexivity.
    + eexists. split; [reflexivity|]. split; [exact Hpk|].
      split; [reflexivity|]. cbn [cache reads mem dbs pkgs dicts].
      do 3 (split; [reflexivity|]).
      exists found. split; [first [exact Hfound|reflexivity]|]. split; [exact Hne|].
      split; reflexivity.
  - exists p1. split; [reflexivity|]. split; [exact Hpk|].
    do 4 (split; [reflexivity|]). reflexivity.
Qed.

(** *** The references stay valid *)

Lemma wf_start : wf start.
Proof.
  split.
  - intros l [=].
  - intros pkg info l Hin. cbn in Hin. rewrite lookup_empty in Hin. discriminate.
Qed.

Lemma new_package_wf info p :
  wf p ->
  (forall l, flags info = Some l -> is_Some (dicts (mem p) !! l)) ->
  wf (fst (new_package info p)).
Proof.
  intros [Hc Hp] Hinfo. unfold new_package. cbn [fst]. split.
  - exact Hc.
  - intros pkg info' l Hin Hfl. cbn [mem pkgs dicts] in *.
    destruct (decide (fresh (dom (pkgs (mem p))) = pkg)) as [<-|Hne].
    + rewrite lookup_insert_eq in Hin. injection Hin as <-. auto.
    + rewrite lookup_insert_ne in Hin by exact Hne. eauto.
Qed.

Lemma get_flags_database_wf file p :
  wf p -> wf (fst (get_flags_database file p)).
Proof.
  intros Hwf. destruct (get_flags_database file p) as [p1 [l|e]] eqn:H.
  - apply get_flags_database_returns in H as (_ & _ & _ & _ & H). auto.
  - apply get_flags_database_raises in H as (_ & Hc & Hm & _).
    destruct Hwf as [_ Hp]. cbn [fst]. split.
    + intros l. rewrite Hc. discriminate.
    + rewrite Hm. exact Hp.
Qed.

Lemma set_flags_wf pkg info fl p :
  wf p -> is_Some (dicts (mem p) !! fl) -> wf (fst (set_flags pkg info fl p)).
Proof.
  intros [Hc Hp] Hfl. unfold set_flags, modify. cbn [fst]. split.
  - exact Hc.
  - intros pkg' info' l Hin Hl. cbn [mem pkgs dicts] in *.
    destruct (decide (pkg = pkg')) as [<-|Hne].
    + rewrite lookup_insert_eq in Hin. injection Hin as <-.
      cbn in Hl. injection Hl as <-. exact Hfl.
    + rewrite lookup_insert_ne in Hin by exact Hne. eauto.
Qed.

Lemma update_dict_wf l found mine p :
  wf p -> dicts (mem p) !! l = Some mine -> dict_truthy mine = true ->
  wf (fst (update_dict l found p)).
Proof.
  intros [Hc Hp] Hl Hmine. unfold update_dict, modify. cbn [fst]. split.
  - intros dbl Hdbl. cbn [cache mem dbs dicts] in *.
    destruct (Hc _ Hdbl) as (db & Hdb & Hentries). exists db.
    split; [exact Hdb|]. intros k fl Hk. cbn [dicts].
    destruct (Hentries _ _ Hk) as (d & Hd & Htruthy).
    destruct (decide (l = fl)) as [<-|Hne].
    + rewrite lookup_alter_eq, Hl. eexists. split; [reflexivity|].
      apply dict_truthy_union, Hmine.
    + rewrite lookup_alter_ne by exact Hne. eauto.
  - intros pkg info l' Hin Hl'. cbn [mem pkgs dicts] in *.
    destruct (decide (l = l')) as [<-|Hne].
    + rewrite lookup_alter_eq, Hl. eauto.
    + rewrite lookup_alter_ne by exact Hne. eauto.
Qed.

(** [apply_predefined_flags] keeps the process well formed, whatever it is
    applied to and whether it returns or raises. *)
Lemma apply_predefined_flags_wf file pkg p :
  wf p -> wf (fst (apply_predefined_flags file pkg p)).
Proof.
  intros Hwf. unfold apply_predefined_flags, bind, get, the.
  destruct (pkgs (mem p) !! pkg) as [info|] eqn:Hpkg; [|exact Hwf].
  unfold ret at 1.
  pose proof (get_flags_database_wf file p Hwf) as Hwf1.
  destruct (get_flags_database file p) as [p1 [dbl|e]] eqn:Hget;
    cbn [fst] in Hwf1; [|exact Hwf1].
  destruct (dbs (mem p1) !! dbl) as [db|]; [|exact Hwf1].
  unfold ret at 1.
  destruct (db !! _) as [fl|]; [|exact Hwf1].
  destruct (dicts (mem p1) !! fl) as [found|] eqn:Hfl; [|exact Hwf1].
  unfold ret at 1.
  destruct (dict_truthy found); [|exact Hwf1].
  assert (Hset : wf (fst (set_flags pkg info fl p1))).
  { apply set_flags_wf; [exact Hwf1|]. rewrite Hfl. eauto. }
  destruct (flags info) as [l|].
  - destruct (dicts (mem p1) !! l) as [mine|] eqn:Hl; [|exact Hwf1].
    unfold ret at 1. destruct (dict_truthy mine) eqn:Hmine.
    + pose proof (update_dict_wf l found mine p1 Hwf1 Hl Hmine) as Hup.
      unfold update_dict, modify, ret in *. exact Hup.
    + unfold set_flags, modify, ret in *. exact Hset.
  - unfold set_flags, modify, ret in *. exact Hset.
Qed.

(** The references of a process stay valid: the process a program starts
    in is well formed, and every operation of the module, and the creation
    of a package whose flags are [None] or a dictionary of the heap, keeps
    it so, whether the operation returns or raises. *)
Theorem process_stays_wf :
  wf start
  /\ (forall file p, wf p -> wf (fst (get_flags_database file p)))
  /\ (forall file pkg p, wf p -> wf (fst (apply_predefined_flags file pkg p)))
  /\ (forall info p,
        wf p ->
        (forall l, flags info = Some l -> is_Some (dicts (mem p) !! l)) ->
        wf (fst (new_package info p))).
Proof.
  split; [exact wf_start|]. split; [exact get_flags_database_wf|].
  split; [exact apply_predefined_flags_wf|exact new_package_wf].
Qed.

End FlagsDatabase.

(** *** The flags database on concrete inputs *)
Section FlagsExamples.
Import Py Flags Examples.

(** C4 as the claim has it fails: when [flags.json] cannot be parsed, every
    call reads it again. *)
Lemma get_flags_database_rereads :
  let out := calls [Malformed json_error; Malformed json_error] start in
  reads (fst out) = 2
  /\ cache (fst out) = None
  /\ snd out = [Raise json_error; Raise json_error].
Proof. vm_compute. auto. Qed.

(** The database of the example file: names in lower case, one dictionary
    for each key. *)
Example get_flags_database_example :
  exists p1 db d,
    get_flags_database (Parsed flags_json) start = (p1, Ok 1%positive)
    /\ dbs (mem p1) !! 1%positive = Some db
    /\ map_to_list db
       = [("Mod:a2plus", 1%positive); ("Mod:defeaturing", 2%positive);
          ("Macro:foo", 3%positive)]
    /\ dicts (mem p1) !! 1%positive = Some d
    /\ map_to_list d = [("obsolete", true); ("py2only", true)].
Proof. do 3 eexists. repeat split; vm_compute; reflexivity. Qed.

Lemma wf_one_package : wf one_package.
Proof. apply new_package_wf; [apply wf_start|]. intros l [=]. Qed.

(** The workbench [A2Plus] is looked up under [Mod:a2plus], not under
    [Workbench:a2plus] or [Mod:A2Plus], and gets the dictionary of that
    entry itself, with the two flags the file lists for it; the macro [Foo]
    has another entry. *)
Lemma apply_predefined_flags_merges_witness :
  wf one_package
  /\ pkgs (mem one_package) !! 1%positive = Some a2plus
  /\ exists p2 db found,
       apply_predefined_flags (Parsed flags_json) 1%positive one_package
       = (p2, Ok 1%positive)
       /\ cache p2 = Some 1%positive
       /\ dbs (mem p2) !! 1%positive = Some db
       /\ db !! "Mod:a2plus" = Some 1%positive
       /\ db !! "Macro:foo" = Some 3%positive
       /\ db !! "Workbench:a2plus" = None
       /\ db !! "Mod:A2Plus" = None
       /\ pkgs (mem p2) !! 1%positive
          = Some {| type := "Workbench"; name := "A2Plus";
                    flags := Some 1%positive |}
       /\ dicts (mem p2) !! 1%positive = Some found
       /\ found !! "obsolete" = Some true
       /\ found !! "py2only" = Some true.
Proof.
  assert (Hpkg : pkgs (mem one_package) !! 1%positive = Some a2plus).
  { vm_compute. reflexivity. }
  split; [exact wf_one_package|]. split; [exact Hpkg|].
  pose proof (apply_predefined_flags_merges
                (Parsed flags_json) one_package 1%positive a2plus
                wf_one_package Hpkg) as H.
  cbv zeta in H.
  set (p1 := fst (get_flags_database (Parsed flags_json) one_package)).
  assert (Hget : get_flags_database (Parsed flags_json) one_package
                 = (p1, Ok 1%positive)).
  { vm_compute. reflexivity. }
  rewrite Hget in H.
  destruct H as (db & p2 & Hdb & _ & Hrun & Hc & _ & Hdbs & Hcase).
  assert (Hl : dbs (mem p1) !! 1%positive
               = Some (snd (load_flags flags_json (mem one_package)))).
  { vm_compute. reflexivity. }
  assert (Hdbeq : db = snd (load_flags flags_json (mem one_package)))
    by congruence.
  subst db.
  match type of Hcase with
  | match ?looked with _ => _ end =>
      assert (Hkey : looked = Some 1%positive) by (vm_compute; reflexivity)
  end.
  rewrite Hkey in Hcase. destruct Hcase as (found & Hfound & _ & Hpk & Hd).
  cbn [flags a2plus] in Hpk.
  exists p2, (snd (load_flags flags_json (mem one_package))), found.
  split; [exact Hrun|]. split; [rewrite Hc; vm_compute; reflexivity|].
  split; [rewrite Hdbs; exact Hl|].
  do 4 (split; [vm_compute; reflexivity|]).
  split; [rewrite Hpk; apply lookup_insert_eq|].
  split; [rewrite Hd; exact Hfound|].
  assert (Hf : dicts (mem p1) !! 1%positive
               = Some (<["py2only" := true]> {["obsolete" := true]})).
  { vm_compute. reflexivity. }
  rewrite Hf in Hfound. injection Hfound as <-.
  split; vm_compute; reflexivity.
Defined.

(** C3 as the claim has it fails: [flags.json] cannot be parsed, the
    exception of [json.load] leaves [apply_predefined_flags], and the
    package is not returned. *)
Lemma apply_predefined_flags_raises :
  apply_predefined_flags (Malformed json_error) 1%positive one_package
  = ({| mem := mem one_package; cache := None; reads := 1 |},
     Raise json_error).
Proof. vm_compute. reflexivity. Qed.

End FlagsExamples.

(** ** protocol/http.py *)
Section HttpHelper.
Import Py Http.

Variable env : Env.


(** [getProxyConf] raises exactly when none of the three choices is
    checked, and then for the local [proxies]. *)
Lemma getProxyConf_raises_iff e :
  getProxyConf env = Raise e
  <-> e = UnboundLocalError "proxies"
      /\ GetBool env "NoProxyCheck" true = false
      /\ GetBool env "SystemProxyCheck" false = false
      /\ GetBool env "UserProxyCheck" false = false.
Proof.
  unfold getProxyConf, proxies_local.
  destruct (GetBool env "NoProxyCheck" true);
    [split; [discriminate|intros (_ & ? & _); discriminate]|].
  destruct (GetBool env "SystemProxyCheck" false);
    [split; [discriminate|intros (_ & _ & ? & _); discriminate]|].
  destruct (GetBool env "UserProxyCheck" false);
    [split; [discriminate|intros (_ & _ & _ & ?); discriminate]|].
  split; [intros [= <-]; auto|intros (-> & _); reflexivity].
Qed.

Lemma urllibInit_run s :
  urllibInit env s =
  if request_initialized s then (s, Ok tt)
  else match getProxyConf env with
       | Raise e => (s, Raise e)
       | Ok proxy_support =>
           match build_opener env proxy_support (getSslHandler env) with
           | Raise e => (s, Raise e)
           | Ok _ => ({| request_initialized := true; trace := trace s |}, Ok tt)
           end
       end.
Proof.
  unfold urllibInit, bind, get, lift, modify, ret.
  destruct (request_initialized s); [reflexivity|]. cbn [negb].
  destruct (getProxyConf env) as [ph|e]; [|reflexivity].
  destruct (build_opener env ph (getSslHandler env)) as [[]|e]; reflexivity.
Qed.

Lemma urllibInit_trace s : trace (fst (urllibInit env s)) = trace s.
Proof.
  rewrite urllibInit_run. destruct (request_initialized s); [reflexivity|].
  destruct (getProxyConf env) as [ph|e]; [|reflexivity].
  destruct (build_opener env ph (getSslHandler env)) as [[]|e]; reflexivity.
Qed.

(** *** The read loop *)

Lemma is_empty_false (c : list byte) : c <> [] -> is_empty c = false.
Proof. destruct c; [contradiction|reflexivity]. Qed.

(** Chunks read without decoding are added to the list byte by byte. *)
Lemma get_loop_bytes decode chunks rest acc :
  decode_truthy decode = false ->
  Forall (fun c => c <> []) chunks ->
  get_loop env decode (map Ok chunks ++ rest) (VList acc)
  = get_loop env decode rest (VList (acc ++ map int_of_byte (concat chunks))).
Proof.
  intros Hd Hne. revert acc.
  induction Hne as [|c chunks Hc Hne IH]; intros acc.
  - cbn. rewrite app_nil_r. reflexivity.
  - cbn [map app get_loop]. rewrite (is_empty_false c Hc).
    assert (Hdec :
      match decode with
      | Some codec =>
          if str_truthy codec
          then match decode_bytes env codec c with
               | Ok s => Ok (VStr s)
               | Raise e => Raise e
               end
          else Ok (VBytes c)
      | None => Ok (VBytes c)
      end = Ok (VBytes c)).
    { destruct decode as [codec|]; [|reflexivity].
      cbn in Hd. rewrite Hd. reflexivity. }
    rewrite Hdec. cbn [iadd]. rewrite IH.
    cbn [concat]. rewrite map_app, app_assoc. reflexivity.
Qed.

(** Chunks that decode are added to the string. *)
Lemma get_loop_str codec chunks strs rest acc :
  str_truthy codec = true ->
  Forall (fun c => c <> []) chunks ->
  Forall2 (fun c s => decode_bytes env codec c = Ok s) chunks strs ->
  get_loop env (Some codec) (map Ok chunks ++ rest) (VStr acc)
  = get_loop env (Some codec) rest (VStr (acc +:+ String.concat "" strs)).
Proof.
  intros Hd Hne Hdec. revert acc Hne.
  induction Hdec as [|c s chunks strs Hs Hdec IH]; intros acc Hne.
  - cbn. rewrite str_app_nil_r. reflexivity.
  - inversion Hne as [|? ? Hc Hne']; subst.
    cbn [map app get_loop]. rewrite (is_empty_false c Hc), Hd, Hs.
    cbn [iadd]. rewrite IH by exact Hne'.
    rewrite str_concat_cons, str_app_assoc. reflexivity.
Qed.

(** The loop leaves [data] a string or a list when it started as one. *)
Lemma iadd_not_none data p data' :
  iadd data p = Ok data' -> data' <> VNone.
Proof. destruct data, p; cbn; intros [= <-]; discriminate. Qed.

Lemma get_loop_not_none decode f data :
  data <> VNone -> fst (get_loop env decode f data) <> VNone.
Proof.
  revert data. induction f as [|[p|e] f IH]; intros data Hd; cbn [get_loop];
    [exact Hd| |exact Hd].
  destruct (is_empty p); [exact Hd|].
  match goal with |- context [match ?d with Ok _ => _ | Raise _ => _ end] =>
    destruct d as [p'|e] eqn:Hp end; [|exact Hd].
  destruct (iadd data p') as [data'|e] eqn:Hi; [|exact Hd].
  apply IH. eapply iadd_not_none, Hi.
Qed.

(** *** httpGet *)

Lemma except_log_run url e s :
  except_log env url e s
  = ({| request_initialized := request_initialized s;
        trace := trace s ++ [logged env url e] |}, Ok tt).
Proof. destruct e; reflexivity. Qed.

Lemma httpGet_run url headers timeout decode s :
  httpGet env url headers timeout decode s =
  match urllibInit env s with
  | (s1, Raise e) => (s1, Raise e)
  | (s1, Ok _) =>
      match Request_init env url (headers_or_empty headers) with
      | Raise e =>
          ({| request_initialized := request_initialized s1;
              trace := trace s1 ++ [logged env url e] |}, Ok VNone)
      | Ok _ =>
          let req := request_of url headers in
          let out :=
            match urlopen env req timeout with
            | Raise e => (VNone, Raise e)
            | Ok f =>
                get_loop env decode f
                         (if decode_truthy decode then VStr "" else VList [])
            end in
          ({| request_initialized := request_initialized s1;
              trace := trace s1 ++ UrlOpen req timeout
                         :: match snd out with
                            | Ok _ => []
                            | Raise e => [logged env url e]
                            end |},
           Ok (fst out))
      end
  end.
Proof.
  unfold httpGet. unfold bind at 1.
  destruct (urllibInit env s) as [s1 [[]|e]]; [|reflexivity].
  destruct (Request_init env url (headers_or_empty headers)) as [[]|e0].
  2:{ unfold bind, ret. rewrite except_log_run. reflexivity. }
  unfold bind at 1. unfold emit at 1. fold (request_of url headers).
  cbv zeta.
  destruct (match urlopen env (request_of url headers) timeout with
            | Ok f => _
            | Raise e => _
            end) as [data [[]|e]]; cbn [fst snd].
  - reflexivity.
  - unfold bind, ret. rewrite except_log_run. cbn [trace request_initialized].
    rewrite <- app_assoc. reflexivity.
Qed.

Lemma logged_not_fetch url e : is_fetch (logged env url e) = false.
Proof. destruct e; reflexivity. Qed.

Lemma reads_all_split f chunks :
  reads_all f chunks ->
  Forall (fun c => c <> []) chunks
  /\ exists rest, f = map Ok chunks ++ rest
                  /\ (rest = [] \/ exists r, rest = Ok [] :: r).
Proof.
  intros [Hne [->|[rest ->]]]; (split; [exact Hne|]).
  - exists []. rewrite app_nil_r. auto.
  - exists (Ok [] :: rest). eauto.
Qed.

(** What the loop has in [data] after chunks that add up. *)
Lemma get_loop_accumulates decode chunks rest body :
  Forall (fun c => c <> []) chunks ->
  accumulates env decode chunks body ->
  get_loop env decode (map Ok chunks ++ rest)
           (if decode_truthy decode then VStr "" else VList [])
  = get_loop env decode rest body.
Proof.
  intros Hne Hacc. unfold accumulates in Hacc.
  destruct decode as [codec|]; cbn [decode_truthy opt_str_truthy].
  - destruct (str_truthy codec) eqn:Hc.
    + destruct Hacc as (strs & Hdec & ->).
      apply (get_loop_str codec chunks strs rest "" Hc Hne Hdec).
    + subst body. apply (get_loop_bytes (Some codec) chunks rest []); [|exact Hne].
      cbn [decode_truthy opt_str_truthy]. exact Hc.
  - subst body. apply (get_loop_bytes None chunks rest []); [reflexivity|exact Hne].
Qed.

(** C5, as the code has it.  Once [urllibInit] has returned, [httpGet]
    calls [urlopen] at most once, not at all when making the request
    raises and once otherwise, and no exception leaves it: what [Request],
    [urlopen], a read or a decoding raises is logged, a [URLError] with the
    url and its reason and anything else with the traceback.  It returns
    [None] exactly when [Request] or [urlopen] raised.  When a read or a
    decoding raises after the url was opened, it returns what the chunks
    read before add up to, a list or a string and not [None]; when the
    stream is read to its end it returns what all the chunks add up to, and
    logs nothing. *)
Theorem httpGet_outcomes (url : string)
        (headers : option (gmap string string)) (timeout : Z)
        (decode : option string) (s : session) :
  snd (urllibInit env s) = Ok tt ->
  let req := request_of url headers in
  let made := Request_init env url (headers_or_empty headers) in
  exists data evs,
    httpGet env url headers timeout decode s
    = ({| request_initialized := request_initialized (fst (urllibInit env s));
          trace := trace s ++ evs |},
       Ok data)
    /\ fetches evs <= 1
    /\ (fetches evs = 0 <-> raises made = true)
    /\ (data = VNone
        <-> raises made = true \/ raises (urlopen env req timeout) = true)
    /\ (forall e, made = Raise e -> evs = [logged env url e])
    /\ (made = Ok tt ->
        exists logs,
          evs = UrlOpen req timeout :: logs
          /\ (forall e, urlopen env req timeout = Raise e ->
                logs = [logged env url e])
          /\ (forall chunks e rest body,
                urlopen env req timeout
                = Ok (map Ok chunks ++ Raise e :: rest) ->
                Forall (fun c => c <> []) chunks ->
                accumulates env decode chunks body ->
                data = body /\ logs = [logged env url e])
          /\ (forall chunks c e rest codec body,
                urlopen env req timeout = Ok (map Ok chunks ++ Ok c :: rest) ->
                Forall (fun c => c <> []) chunks -> c <> [] ->
                decode = Some codec -> str_truthy codec = true ->
                decode_bytes env codec c = Raise e ->
                accumulates env decode chunks body ->
                data = body /\ logs = [logged env url e])
          /\ (forall f chunks body,
                urlopen env req timeout = Ok f ->
                reads_all f chunks ->
                accumulates env decode chunks body ->
                data = body /\ logs = [])).
Proof.
  intros Hinit req made. rewrite httpGet_run.
  pose proof (urllibInit_trace s) as Htr.
  destruct (urllibInit env s) as [s1 [[]|e0]]; [|discriminate].
  cbn [fst snd] in *. rewrite Htr. subst made.
  destruct (Request_init env url (headers_or_empty headers)) as [[]|em].
  2:{ eexists _, _. split; [reflexivity|]. cbn [raises].
      assert (Hf : fetches [logged env url em] = 0).
      { unfold fetches. cbn [List.filter]. rewrite logged_not_fetch.
        reflexivity. }
      rewrite Hf.
      split; [lia|]. split; [split; reflexivity|].
      split; [split; [auto|reflexivity]|].
      split; [intros e [= <-]; reflexivity|discriminate]. }
  cbv zeta. fold req. cbn [raises].
  set (data0 := if decode_truthy decode then VStr "" else VList []).
  assert (H0 : data0 <> VNone).
  { subst data0. destruct (decode_truthy decode); discriminate. }
  assert (Hone : forall logs,
            logs = [] \/ (exists e, logs = [logged env url e]) ->
            fetches (UrlOpen req timeout :: logs) = 1).
  { intros logs [->|[e ->]]; unfold fetches; cbn [List.filter is_fetch];
      [reflexivity|]. rewrite logged_not_fetch. reflexivity. }
  destruct (urlopen env req timeout) as [f|e] eqn:Hopen; cbn [fst snd raises].
  - eexists _, _. split; [reflexivity|].
    assert (Hf : fetches
              (UrlOpen req timeout
                 :: match snd (get_loop env decode f data0) with
                    | Ok _ => []
                    | Raise e => [logged env url e]
                    end) = 1).
    { apply Hone. destruct (snd (get_loop env decode f data0)); eauto. }
    rewrite Hf.
    split; [lia|]. split; [split; discriminate|].
    split.
    { split; [|intros [?|?]; discriminate].
      intros H. exfalso. eapply get_loop_not_none; eauto. }
    split; [discriminate|]. intros _.
    eexists. split; [reflexivity|].
    split; [discriminate|].
    split; [|split].
    + intros chunks e rest body [= ->] Hne Hacc. subst data0.
      rewrite (get_loop_accumulates decode chunks _ body Hne Hacc).
      split; reflexivity.
    + intros chunks c e rest codec body [= ->] Hne Hc -> Hcodec Hdec Hacc.
      subst data0.
      rewrite (get_loop_accumulates (Some codec) chunks _ body Hne Hacc).
      cbn [get_loop]. rewrite (is_empty_false c Hc), Hcodec, Hdec.
      split; reflexivity.
    + intros f' chunks body [= <-] Hreads Hacc. subst data0.
      apply reads_all_split in Hreads as (Hne & rest & -> & Hrest).
      rewrite (get_loop_accumulates decode chunks _ body Hne Hacc).
      destruct Hrest as [->|[r ->]]; split; reflexivity.
  - eexists _, _. split; [reflexivity|].
    rewrite (Hone [logged env url e]) by eauto.
    split; [lia|]. split; [split; discriminate|].
    split; [split; [auto|reflexivity]|].
    split; [discriminate|]. intros _.
    eexists. split; [reflexivity|].
    split; [intros e' [= <-]; reflexivity|].
    split; [|split]; intros; discriminate.
Qed.

(** C10. When [httpGet] succeeds, the request being made and opened and
    the reads giving the chunks [chunks] and then the end of the stream:
    with a [decode] argument that is not true the value returned is a list
    of the bytes of the chunks as integers, in order; with a codec
    (["utf-8"] by default) under which every chunk decodes it is the string
    of the decoded chunks, one after the other. *)
Theorem httpGet_body (url : string)
        (headers : option (gmap string string)) (timeout : Z)
        (decode : option string) (s : session)
        (f : stream) (chunks : list (list byte)) :
  snd (urllibInit env s) = Ok tt ->
  Request_init env url (headers_or_empty headers) = Ok tt ->
  urlopen env (request_of url headers) timeout = Ok f ->
  reads_all f chunks ->
  (decode_truthy decode = false ->
   snd (httpGet env url headers timeout decode s)
   = Ok (VList (map int_of_byte (concat chunks))))
  /\ (forall codec strs,
        decode = Some codec -> str_truthy codec = true ->
        Forall2 (fun c s => decode_bytes env codec c = Ok s) chunks strs ->
        snd (httpGet env url headers timeout decode s)
        = Ok (VStr (String.concat "" strs))).
Proof.
  intros Hinit Hmade Hopen [Hne Hf]. rewrite httpGet_run.
  destruct (urllibInit env s) as [s1 [[]|e0]]; [|discriminate].
  rewrite Hmade. cbv zeta. rewrite Hopen. cbn [snd].
  assert (Hf' : exists rest, f = map Ok chunks ++ rest
                             /\ (rest = [] \/ exists r, rest = Ok [] :: r)).
  { destruct Hf as [->|[rest ->]].
    - exists []. rewrite app_nil_r. auto.
    - exists (Ok [] :: rest). eauto. }
  destruct Hf' as (rest & -> & Hrest).
  assert (Hend : forall data, get_loop env decode rest data = (data, Ok tt)).
  { intros data. destruct Hrest as [->|[r ->]]; reflexivity. }
  split.
  - intros Hd. rewrite Hd.
    rewrite (get_loop_bytes decode chunks rest [] Hd Hne), Hend.
    reflexivity.
  - intros codec strs -> Hc Hdec. cbn [decode_truthy opt_str_truthy].
    rewrite Hc. rewrite (get_loop_str codec chunks strs rest "" Hc Hne Hdec).
    rewrite Hend. reflexivity.
Qed.

(** *** httpDownload *)

Lemma download_loop_ok path chunks rest n s :
  Forall (fun c => c <> []) chunks ->
  writes_ok env path n chunks ->
  rest = [] \/ (exists r, rest = Ok [] :: r) ->
  download_loop env path (map Ok chunks ++ rest) n s
  = ({| request_initialized := request_initialized s;
        trace := trace s ++ map (FileWrite path) chunks |},
     Ok (n + length (concat chunks))).
Proof.
  intros Hne. revert n s.
  induction Hne as [|c chunks Hc Hne IH]; intros n s Hw Hrest.
  - cbn [map app concat length]. rewrite app_nil_r, Nat.add_0_r.
    destruct s. destruct Hrest as [->|[r ->]]; reflexivity.
  - destruct Hw as [Hw1 Hw]. cbn [map app download_loop].
    rewrite (is_empty_false c Hc). unfold bind at 1, lift at 1.
    rewrite Hw1. unfold bind at 1, emit at 1.
    rewrite (IH _ _ Hw Hrest). cbn [request_initialized trace concat].
    rewrite <- app_assoc, length_app, Nat.add_assoc. reflexivity.
Qed.

Lemma download_loop_inv path f n s s' n' :
  download_loop env path f n s = (s', Ok n') ->
  exists chunks,
    reads_all f chunks
    /\ writes_ok env path n chunks
    /\ n' = n + length (concat chunks)
    /\ s' = {| request_initialized := request_initialized s;
               trace := trace s ++ map (FileWrite path) chunks |}.
Proof.
  revert n s. induction f as [|[p|e] f IH]; intros n s H; cbn [download_loop] in H.
  - injection H as <- <-. exists []. unfold reads_all. cbn.
    rewrite app_nil_r, Nat.add_0_r. destruct s. auto 10.
  - destruct (is_empty p) eqn:Hp.
    + injection H as <- <-. exists []. unfold reads_all. cbn.
      rewrite app_nil_r, Nat.add_0_r. destruct s.
      destruct p; [|discriminate]. eauto 10.
    + unfold bind at 1, lift at 1 in H.
      destruct (file_write env path n p) as [[]|e] eqn:Hw; [|discriminate].
      unfold bind at 1, emit at 1 in H.
      apply IH in H as (chunks & [Hne Hf] & Hws & -> & ->).
      exists (p :: chunks). cbn [request_initialized trace].
      split; [|split; [|split]].
      * split; [constructor; [intros ->; discriminate|exact Hne]|].
        destruct Hf as [->|[r ->]]; [left; reflexivity|right; eauto].
      * split; assumption.
      * cbn [concat]. rewrite length_app. lia.
      * cbn [map]. rewrite <- app_assoc. reflexivity.
  - discriminate.
Qed.

(** The loop only adds writes to the trace. *)
Lemma download_loop_trace path f n s :
  exists written,
    fst (download_loop env path f n s)
    = {| request_initialized := request_initialized s;
         trace := trace s ++ map (FileWrite path) written |}.
Proof.
  revert n s. induction f as [|[p|e] f IH]; intros n s; cbn [download_loop].
  - exists []. cbn [map]. rewrite app_nil_r. destruct s; reflexivity.
  - destruct (is_empty p).
    + exists []. cbn [map]. rewrite app_nil_r. destruct s; reflexivity.
    + unfold bind at 1, lift at 1.
      destruct (file_write env path n p) as [[]|e].
      * unfold bind at 1, emit at 1.
        destruct (IH (n + length p)
                     {| request_initialized := request_initialized s;
                        trace := trace s ++ [FileWrite path p] |}) as [w Hw].
        exists (p :: w). rewrite Hw.
        cbn [request_initialized trace map]. rewrite <- app_assoc. reflexivity.
      * exists []. cbn [map]. rewrite app_nil_r. destruct s; reflexivity.
  - exists []. cbn [map]. rewrite app_nil_r. destruct s; reflexivity.
Qed.

Lemma httpDownload_run url path headers timeout s :
  httpDownload env url path headers timeout s =
  match urllibInit env s with
  | (s1, Raise e) => (s1, Raise e)
  | (s1, Ok _) =>
      let req := request_of url headers in
      let s2 := {| request_initialized := request_initialized s1;
                   trace := trace s1 ++ [UrlOpen req timeout] |} in
      let failed (s3 : session) (e : exn) :=
        ({| request_initialized := request_initialized s3;
            trace := trace s3 ++ [logged env url e] |}, Ok false) in
      match Request_init env url (headers_or_empty headers) with
      | Raise e => failed s1 e
      | Ok _ =>
          match urlopen env req timeout with
          | Raise e => failed s2 e
          | Ok f =>
              match open_wb env path with
              | Raise e => failed s2 e
              | Ok _ =>
                  match download_loop env path f 0 s2 with
                  | (s3, Raise e) => failed s3 e
                  | (s3, Ok n) =>
                      match file_close env path n with
                      | Raise e => failed s3 e
                      | Ok _ => (s3, Ok true)
                      end
                  end
              end
          end
      end
  end.
Proof.
  unfold httpDownload. unfold bind at 1.
  destruct (urllibInit env s) as [s1 [[]|e]]; [|reflexivity].
  fold (request_of url headers). cbv zeta.
  unfold try_except. unfold bind at 1, lift at 1.
  destruct (Request_init env url (headers_or_empty headers)) as [[]|e0].
  2:{ unfold bind, ret. rewrite except_log_run. reflexivity. }
  unfold bind at 1, emit at 1.
  unfold bind at 1, lift at 1.
  destruct (urlopen env (request_of url headers) timeout) as [f|e].
  - unfold bind at 1, lift at 1.
    destruct (open_wb env path) as [[]|e].
    + unfold bind at 1.
      destruct (download_loop env path f 0 _) as [s3 [n|e]].
      * unfold bind at 1, lift at 1.
        destruct (file_close env path n) as [[]|e]; [reflexivity|].
        unfold bind, ret. rewrite except_log_run. reflexivity.
      * unfold bind, ret. rewrite except_log_run. reflexivity.
    + unfold bind, ret. rewrite except_log_run. reflexivity.
  - unfold bind, ret. rewrite except_log_run. reflexivity.
Qed.

(** Once [urllibInit] has returned, no exception leaves [httpDownload]:
    it returns [True] exactly when the request was made and opened and the
    whole remote stream was read and written to the local file, and then
    the writes are the chunks of the stream in order; otherwise it logs the
    exception, after the writes made so far, and returns [False].  When
    making the request raises, [urlopen] is not called. *)
Theorem httpDownload_outcomes (url path : string)
        (headers : option (gmap string string)) (timeout : Z) (s : session) :
  snd (urllibInit env s) = Ok tt ->
  let req := request_of url headers in
  let made := Request_init env url (headers_or_empty headers) in
  exists b evs,
    httpDownload env url path headers timeout s
    = ({| request_initialized := request_initialized (fst (urllibInit env s));
          trace := trace s ++ evs |},
       Ok b)
    /\ (b = true <-> exists chunks, download_ok env url path headers timeout chunks)
    /\ (forall chunks,
          download_ok env url path headers timeout chunks ->
          evs = UrlOpen req timeout :: map (FileWrite path) chunks)
    /\ (forall e, made = Raise e -> b = false /\ evs = [logged env url e])
    /\ (made = Ok tt ->
        exists rest,
          evs = UrlOpen req timeout :: rest
          /\ (b = false ->
              exists written e,
                rest = map (FileWrite path) written ++ [logged env url e])).
Proof.
  intros Hinit req made. rewrite httpDownload_run.
  pose proof (urllibInit_trace s) as Htr.
  destruct (urllibInit env s) as [s1 [[]|e0]]; [|discriminate].
  cbn [fst snd] in *. cbv zeta. fold req. unfold download_ok.
  fold (request_of url headers). fold req. subst made.
  destruct (Request_init env url (headers_or_empty headers)) as [[]|em].
  2:{ exists false, [logged env url em]. rewrite Htr.
      split; [reflexivity|]. split; [|split; [|split]].
      - split; [discriminate|]. intros (chunks & f & [=] & _).
      - intros chunks (f & [=] & _).
      - intros e [= <-]. auto.
      - discriminate. }
  set (s2 := {| request_initialized := request_initialized s1;
                trace := trace s1 ++ [UrlOpen req timeout] |}).
  destruct (urlopen env req timeout) as [f|e] eqn:Hopen.
  2:{ exists false, [UrlOpen req timeout; logged env url e].
      unfold s2. cbn [request_initialized trace].
      rewrite Htr, <- app_assoc.
      split; [reflexivity|]. split; [|split; [|split]].
      - split; [discriminate|]. intros (chunks & f & _ & [=] & _).
      - intros chunks (f & _ & [=] & _).
      - discriminate.
      - intros _. eexists. split; [reflexivity|].
        intros _. exists [], e. reflexivity. }
  destruct (open_wb env path) as [[]|e] eqn:Hwb.
  2:{ exists false, [UrlOpen req timeout; logged env url e].
      unfold s2. cbn [request_initialized trace].
      rewrite Htr, <- app_assoc.
      split; [reflexivity|]. split; [|split; [|split]].
      - split; [discriminate|]. intros (chunks & f' & _ & _ & _ & [=] & _).
      - intros chunks (f' & _ & _ & _ & [=] & _).
      - discriminate.
      - intros _. eexists. split; [reflexivity|].
        intros _. exists [], e. reflexivity. }
  destruct (download_loop env path f 0 s2) as [s3 [n|e]] eqn:Hloop.
  - apply download_loop_inv in Hloop as (chunks & Hreads & Hws & -> & ->).
    unfold s2. cbn [request_initialized trace Nat.add]. fold s2.
    assert (Huniq : forall chunks',
              reads_all f chunks' -> writes_ok env path 0 chunks' ->
              chunks' = chunks).
    { intros chunks' Hreads' Hws'.
      apply reads_all_split in Hreads' as (Hne' & rest' & Hf' & Hrest').
      pose proof (download_loop_ok path chunks' rest' 0 s2 Hne' Hws' Hrest') as Hok.
      rewrite <- Hf' in Hok.
      apply reads_all_split in Hreads as (Hne & rest & Hf & Hrest).
      pose proof (download_loop_ok path chunks rest 0 s2 Hne Hws Hrest) as Hok2.
      rewrite <- Hf in Hok2. rewrite Hok in Hok2.
      injection Hok2 as Htrace _. apply app_inv_head in Htrace.
      revert Htrace. clear. revert chunks.
      induction chunks' as [|c cs IH]; intros [|d ds]; cbn; try discriminate; auto.
      intros [= -> H]. f_equal. auto. }
    destruct (file_close env path (length (concat chunks))) as [[]|e] eqn:Hclose.
    + exists true, (UrlOpen req timeout :: map (FileWrite path) chunks).
      rewrite Htr, <- app_assoc.
      split; [reflexivity|]. split; [|split; [|split]].
      * split; [|reflexivity]. intros _. exists chunks, f. auto 10.
      * intros chunks' (f' & _ & [= <-] & Hr' & _ & Hw' & _).
        rewrite (Huniq chunks' Hr' Hw'). reflexivity.
      * discriminate.
      * intros _. eexists. split; [reflexivity|]. discriminate.
    + exists false,
        (UrlOpen req timeout
           :: map (FileWrite path) chunks ++ [logged env url e]).
      cbn [request_initialized trace]. rewrite Htr, <- !app_assoc.
      split; [reflexivity|]. split; [|split; [|split]].
      * split; [discriminate|].
        intros (chunks' & f' & _ & [= <-] & Hr' & _ & Hw' & Hc').
        rewrite (Huniq chunks' Hr' Hw') in Hc'. congruence.
      * intros chunks' (f' & _ & [= <-] & Hr' & _ & Hw' & Hc').
        rewrite (Huniq chunks' Hr' Hw') in Hc'. congruence.
      * discriminate.
      * intros _. eexists. split; [reflexivity|]. intros _. eauto.
  - pose proof (download_loop_trace path f 0 s2) as [written Hw].
    rewrite Hloop in Hw. cbn [fst] in Hw. rewrite Hw.
    exists false,
      (UrlOpen req timeout
         :: map (FileWrite path) written ++ [logged env url e]).
    unfold s2. cbn [request_initialized trace]. rewrite Htr, <- !app_assoc.
    split; [reflexivity|].
    assert (Hno : forall chunks, reads_all f chunks -> writes_ok env path 0 chunks -> False).
    { intros chunks Hr Hws.
      apply reads_all_split in Hr as (Hne & rest & Hf & Hrest).
      pose proof (download_loop_ok path chunks rest 0 s2 Hne Hws Hrest) as Hok.
      rewrite <- Hf, Hloop in Hok. discriminate. }
    split; [|split; [|split]].
    * split; [discriminate|].
      intros (chunks & f' & _ & [= <-] & Hr' & _ & Hw' & _). exfalso. eauto.
    * intros chunks (f' & _ & [= <-] & Hr' & _ & Hw' & _). exfalso. eauto.
    * discriminate.
    * intros _. eexists. split; [reflexivity|]. intros _. eauto.
Qed.

(** The opener is built at most once: an initialised session is left as it
    is. *)
Lemma urllibInit_again s :
  request_initialized s = true -> urllibInit env s = (s, Ok tt).
Proof. intros H. rewrite urllibInit_run, H. reflexivity. Qed.

(** An exception leaves [httpGet] or [httpDownload] exactly when it leaves
    [urllibInit], which both call before their [try] statement. *)
Theorem http_raises_from_init (url path : string)
        (headers : option (gmap string string)) (timeout : Z)
        (decode : option string) (s : session) (e : exn) :
  (snd (httpGet env url headers timeout decode s) = Raise e
   <-> snd (urllibInit env s) = Raise e)
  /\ (snd (httpDownload env url path headers timeout s) = Raise e
      <-> snd (urllibInit env s) = Raise e)
  /\ (snd (urllibInit env s) = Raise e
      <-> request_initialized s = false
          /\ (getProxyConf env = Raise e
              \/ exists proxy_support,
                   getProxyConf env = Ok proxy_support
                   /\ build_opener env proxy_support (getSslHandler env)
                      = Raise e)).
Proof.
  split; [|split].
  - rewrite httpGet_run.
    destruct (urllibInit env s) as [s1 [[]|e0]]; cbn [snd].
    + destruct (Request_init env url (headers_or_empty headers)) as [[]|];
        split; discriminate.
    + split; intros [= ->]; reflexivity.
  - rewrite httpDownload_run.
    destruct (urllibInit env s) as [s1 [[]|e0]]; cbn [snd];
      [|split; intros [= ->]; reflexivity].
    cbv zeta.
    destruct (Request_init env url (headers_or_empty headers)) as [[]|];
      [|split; discriminate].
    destruct (urlopen env _ timeout); [|split; discriminate].
    destruct (open_wb env path) as [[]|]; [|split; discriminate].
    destruct (download_loop env path _ 0 _) as [s3 [n|]]; [|split; discriminate].
    destruct (file_close env path n) as [[]|]; split; discriminate.
  - rewrite urllibInit_run.
    destruct (request_initialized s).
    + split; [discriminate|intros [? _]; discriminate].
    + destruct (getProxyConf env) as [ph|e0]; cbn [snd].
      * destruct (build_opener env ph (getSslHandler env)) as [[]|e1] eqn:Hb;
          cbn [snd].
        -- split; [discriminate|].
           intros [_ [H|(ph' & [= <-] & H)]]; [discriminate|congruence].
        -- split.
           ++ intros [= ->]. split; [reflexivity|]. right. eauto.
           ++ intros [_ [H|(ph' & [= <-] & H)]]; [discriminate|congruence].
      * split.
        -- intros [= ->]. auto.
        -- intros [_ [[= ->]|(ph' & [=] & _)]]. reflexivity.
Qed.

End HttpHelper.

(** *** The HTTP helper on concrete inputs *)
Section HttpExamples.
Import Py Http Examples.

(** C9 at the failing input: with [NoProxyCheck] false and the two other
    choices false (their default), [getProxyConf] reads the local [proxies],
    which no branch assigned, and raises. *)
Lemma getProxyConf_unbound :
  getProxyConf (env_with no_choice unreachable)
  = Raise (UnboundLocalError "proxies").
Proof. vm_compute. reflexivity. Qed.

(** C6 at the failing input: with the same preferences the first call of
    [httpDownload] raises from [urllibInit], before its [try] statement;
    nothing is logged and [False] is not returned. *)
Lemma httpDownload_unbound :
  httpDownload (env_with no_choice two_chunks) "http://x" "/tmp/f" None 30
               new_session
  = (new_session, Raise (UnboundLocalError "proxies")).
Proof. vm_compute. reflexivity. Qed.

(** C5 as the claim has it fails: the answer breaks off after the first
    chunk, the fetch has failed and is logged, and [httpGet] returns the
    chunk read so far, not [None]. *)
Lemma httpGet_partial_data :
  httpGet (env_with ∅ broken_off) "http://x" None 30 (Some "utf-8") new_session
  = ({| request_initialized := true;
        trace := [UrlOpen (request_of "http://x" None) 30;
                  Log ["http://x"; "timed out"]] |},
     Ok (VStr "ab")).
Proof. vm_compute. reflexivity. Qed.

(** A url without a type: the request cannot be made, [urlopen] is not
    called, the exception is logged and [None] is returned. *)
Lemma httpGet_outcomes_witness :
  snd (urllibInit (env_with ∅ two_chunks) new_session) = Ok tt
  /\ exists data evs,
       httpGet (env_with ∅ two_chunks) "foo" None 30 (Some "utf-8")
               new_session
       = ({| request_initialized := true; trace := evs |}, Ok data)
       /\ fetches evs = 0
       /\ data = VNone
       /\ evs = [Log ["Traceback (most recent call last)"]].
Proof.
  assert (Hinit : snd (urllibInit (env_with ∅ two_chunks) new_session) = Ok tt).
  { vm_compute. reflexivity. }
  split; [exact Hinit|].
  destruct (httpGet_outcomes (env_with ∅ two_chunks) "foo" None 30
              (Some "utf-8") new_session Hinit)
    as (data & evs & Hrun & _ & Hzero & Hnone & Hmade & _).
  exists data, evs. split; [exact Hrun|].
  split; [apply Hzero; reflexivity|].
  split; [apply Hnone; left; reflexivity|].
  exact (Hmade (ValueError "unknown url type: 'foo'") eq_refl).
Defined.

Lemma httpGet_body_witness :
  let f := [Ok (list_byte_of_string "ab"); Ok (list_byte_of_string "c")] in
  let chunks := [list_byte_of_string "ab"; list_byte_of_string "c"] in
  snd (urllibInit (env_with ∅ two_chunks) new_session) = Ok tt
  /\ Request_init (env_with ∅ two_chunks) "http://x" (headers_or_empty None)
     = Ok tt
  /\ urlopen (env_with ∅ two_chunks) (request_of "http://x" None) 30 = Ok f
  /\ reads_all f chunks
  /\ snd (httpGet (env_with ∅ two_chunks) "http://x" None 30 None new_session)
     = Ok (VList [VInt 97; VInt 98; VInt 99])
  /\ snd (httpGet (env_with ∅ two_chunks) "http://x" None 30 (Some "utf-8")
                  new_session)
     = Ok (VStr "abc").
Proof.
  intros f chunks.
  assert (Hinit : snd (urllibInit (env_with ∅ two_chunks) new_session) = Ok tt).
  { vm_compute. reflexivity. }
  assert (Hopen : urlopen (env_with ∅ two_chunks) (request_of "http://x" None) 30
                  = Ok f).
  { reflexivity. }
  assert (Hreads : reads_all f chunks).
  { split; [|left; reflexivity]. repeat constructor; discriminate. }
  assert (Hmade : Request_init (env_with ∅ two_chunks) "http://x"
                                (headers_or_empty None) = Ok tt).
  { reflexivity. }
  split; [exact Hinit|]. split; [exact Hmade|]. split; [exact Hopen|].
  split; [exact Hreads|].
  split.
  - apply (proj1 (httpGet_body (env_with ∅ two_chunks) "http://x" None 30 None
                    new_session f chunks Hinit Hmade Hopen Hreads)).
    reflexivity.
  - apply (proj2 (httpGet_body (env_with ∅ two_chunks) "http://x" None 30
                    (Some "utf-8") new_session f chunks Hinit Hmade Hopen
                    Hreads)
             "utf-8" ["ab"; "c"]); [reflexivity..|].
    repeat constructor.
Defined.

Lemma httpDownload_outcomes_witness :
  snd (urllibInit (env_with ∅ two_chunks) new_session) = Ok tt
  /\ httpDownload (env_with ∅ two_chunks) "http://x" "/tmp/f" None 30
                  new_session
     = ({| request_initialized := true;
           trace := [UrlOpen (request_of "http://x" None) 30;
                     FileWrite "/tmp/f" (list_byte_of_string "ab");
                     FileWrite "/tmp/f" (list_byte_of_string "c")] |},
        Ok true).
Proof.
  assert (Hinit : snd (urllibInit (env_with ∅ two_chunks) new_session) = Ok tt).
  { vm_compute. reflexivity. }
  split; [exact Hinit|].
  destruct (httpDownload_outcomes (env_with ∅ two_chunks) "http://x" "/tmp/f"
              None 30 new_session Hinit)
    as (b & evs & Hrun & Htrue & Hevs & _).
  assert (Hok : download_ok (env_with ∅ two_chunks) "http://x" "/tmp/f" None 30
                            [list_byte_of_string "ab"; list_byte_of_string "c"]).
  { eexists. split; [reflexivity|]. split; [reflexivity|].
    split; [|cbn; auto].
    split; [|left; reflexivity]. repeat constructor; discriminate. }
  rewrite Hrun, (Hevs _ Hok). f_equal.
  destruct b; [reflexivity|].
  assert (Hb : false = true) by (apply Htrue; eauto). discriminate.
Defined.

End HttpExamples.

(** ** webview.py: the Windows path pattern, static files, the response
    after [send] *)
Section MoreBridge.
Import Py Re Webview More.

Lemma span_app c s : fst (span c s) +:+ snd (span c s) = s.
Proof.
  induction s as [|x s IH]; [reflexivity|]. simpl.
  destruct (cls_match c x); [|reflexivity].
  cbn [fst snd]. rewrite str_app_cons, IH. reflexivity.
Qed.

(** When what follows never fails, a starred class takes all it can. *)
Lemma star_greedy c k s r :
  (forall s' r', k s' r' <> None) ->
  star c k s r = k (snd (span c s)) (consume_all (fst (span c s)) r).
Proof.
  intros Hk. revert r. induction s as [|x s IH]; intros r; [reflexivity|].
  simpl. destruct (cls_match c x); [|reflexivity].
  cbn [fst snd consume_all]. rewrite IH.
  destruct (k _ _) eqn:E; [reflexivity|]. exfalso. eapply Hk, E.
Qed.

Lemma is_letter_class x :
  cls_match (Ranges [("a"%char, "z"%char); ("A"%char, "Z"%char)]) x
  = is_letter x.
Proof. unfold is_letter. simpl. rewrite orb_false_r. reflexivity. Qed.

Lemma chr_match c x : cls_match (Chr c) x = Ascii.eqb x c.
Proof. reflexivity. Qed.

(** What [WINDOWS_PATH_PATTERN] gives on a path. *)
Lemma windows_match_run (p : string) :
  re_match WINDOWS_PATH_PATTERN p =
  match p with
  | String "/" (String l (String "\" (String ":" s))) =>
      if is_letter l
      then Some (String l (String "\" (String ":" (fst (span Dot s)))))
      else None
  | _ => None
  end.
Proof.
  unfold re_match, WINDOWS_PATH_PATTERN. cbn [exec at_start].
  destruct p as [|c0 p]; [reflexivity|].
  rewrite chr_match. destruct (Ascii.eqb_spec c0 "/") as [->|Hc0].
  2:{ destruct c0 as [[] [] [] [] [] [] [] []]; try reflexivity.
      contradiction. }
  cbn [exec]. destruct p as [|l p]; [reflexivity|].
  cbn [exec]. rewrite is_letter_class.
  destruct (is_letter l) eqn:Hl.
  2:{ destruct p as [|c2 [|c3 p]]; try reflexivity;
      destruct c2 as [[] [] [] [] [] [] [] []]; try reflexivity;
      destruct c3 as [[] [] [] [] [] [] [] []]; reflexivity. }
  cbn [exec]. destruct p as [|c2 p]; [reflexivity|].
  rewrite chr_match. destruct (Ascii.eqb_spec c2 "\") as [->|Hc2].
  2:{ destruct c2 as [[] [] [] [] [] [] [] []]; try reflexivity.
      contradiction. }
  cbn [exec]. destruct p as [|c3 p]; [reflexivity|].
  rewrite chr_match. destruct (Ascii.eqb_spec c3 ":") as [->|Hc3].
  2:{ destruct c3 as [[] [] [] [] [] [] [] []]; try reflexivity.
      contradiction. }
  rewrite star_greedy by (intros s' r'; cbn [exec]; discriminate).
  cbn [exec group1]. f_equal.
  rewrite consume_all_group1 by reflexivity. reflexivity.
Qed.

(** [WINDOWS_PATH_PATTERN] matches exactly the paths made of a slash, a
    letter, a backslash and a colon, and its group is the path without the
    slash, up to the first newline.  A path with the colon right after the
    letter, as in [/C:/something], never matches. *)
Theorem windows_path_pattern_matches (p g : string) :
  (re_match WINDOWS_PATH_PATTERN p = Some g
   <-> exists l s,
         p = String "/" (String l (String "\" (String ":" s)))
         /\ is_letter l = true
         /\ g = String l (String "\" (String ":" (fst (span Dot s)))))
  /\ (forall l s,
        re_match WINDOWS_PATH_PATTERN (String "/" (String l (String ":" s)))
        = None).
Proof.
  split.
  - rewrite windows_match_run. split.
    + intros H.
      destruct p as [|c0 [|l [|c2 [|c3 s]]]]; try discriminate;
        try (destruct c0 as [[] [] [] [] [] [] [] []]; discriminate).
      * destruct c0 as [[] [] [] [] [] [] [] []]; try discriminate;
          destruct c2 as [[] [] [] [] [] [] [] []]; discriminate.
      * destruct c0 as [[] [] [] [] [] [] [] []]; try discriminate;
          destruct c2 as [[] [] [] [] [] [] [] []]; try discriminate;
          destruct c3 as [[] [] [] [] [] [] [] []]; try discriminate.
        destruct (is_letter l) eqn:Hl; [|discriminate].
        injection H as <-. exists l, s. auto.
    + intros (l & s & -> & Hl & ->). rewrite Hl. reflexivity.
  - intros l s. rewrite windows_match_run. reflexivity.
Qed.

(** *** Static files *)

(** A path that is not for the handler and names a file that can be read is
    answered with one reply: its body is the bytes of the file, in a buffer
    at position 0 and closed, and its content type goes by the end of the
    path in lower case: [image/svg+xml] for [.svg], [image/png] for [.png],
    [image/jpeg] for [.jpg], [text/css] for [.css], [text/javascript] for
    [.js], and [text/plain] for anything else. *)
Theorem requestStarted_serves_file (h : Host) (url : QUrl)
        (tr : list event) (data : list byte) :
  dispatches (path url) = false ->
  path_exists h (fix_win_path h (path url)) = true ->
  open_read h (fix_win_path h (path url)) = Ok data ->
  let file_path := lower (path url) in
  let content_type :=
    if endswith file_path ".svg" then "image/svg+xml"
    else if endswith file_path ".png" then "image/png"
    else if endswith file_path ".jpg" then "image/jpeg"
    else if endswith file_path ".css" then "text/css"
    else if endswith file_path ".js" then "text/javascript"
    else "text/plain" in
  requestStarted h url tr
  = (tr ++ [Reply (encode content_type)
                  {| buf_data := data; buf_pos := 0; buf_open := false |}],
     Ok tt).
Proof.
  intros Hd He Hr file_path content_type.
  pose proof (requestStarted_run h url tr) as Hrun.
  cbv zeta in Hrun. rewrite Hd, He, Hr in Hrun. rewrite Hrun.
  unfold QBuffer_close, QBuffer_seek, QBuffer_write, QBuffer_open, QBuffer_new.
  cbn [buf_open buf_pos buf_data]. rewrite take_nil, drop_nil, app_nil_r.
  cbn [buf_open buf_pos buf_data andb app]. reflexivity.
Qed.

(** *** The response after [send] *)

(** What is written to a response after [send] is lost, and a second [send]
    replies again with what the first one sent: after the writes [ws], a
    [send], the writes [ws'] and another [send], the buffer and both
    replies hold the encodings of [ws] only. *)
Theorem Response_after_send (ws ws' : list string) (ct ct' : string) :
  let b := {| buf_data := concat (map encode ws);
              buf_pos := 0; buf_open := false |} in
  let first := Response_send ct (write_all ws fresh_response) in
  snd first = Reply (encode ct) b
  /\ write_all ws' (fst first) = {| buffer := b |}
  /\ Response_send ct' (write_all ws' (fst first))
     = ({| buffer := b |}, Reply (encode ct') b).
Proof.
  intros b first.
  assert (Hfirst : first = ({| buffer := b |}, Reply (encode ct) b)).
  { subst first. unfold Response_send.
    rewrite write_all_from by reflexivity.
    unfold QBuffer_seek, QBuffer_close. simpl. reflexivity. }
  rewrite Hfirst. cbn [fst snd].
  assert (Hlost : write_all ws' {| buffer := b |} = {| buffer := b |}).
  { induction ws' as [|s ws'' IH]; [reflexivity|].
    rewrite write_all_cons. exact IH. }
  split; [reflexivity|]. split; [exact Hlost|].
  rewrite Hlost. reflexivity.
Qed.

End MoreBridge.

Section MoreBridgeExamples.
Import Py Re Webview More.

(** The extension is read without regard to case: [Icon.SVG] is served as
    an SVG image; a style sheet is served as CSS, a JPEG image as such, and
    a file with another extension as plain text. *)
Lemma requestStarted_serves_file_witness :
  let served (name : string) (content : list byte) :=
    requestStarted (file_host name content) (file_url name) [] in
  let reply (content_type : string) (content : list byte) :=
    ([Reply (encode content_type)
            {| buf_data := content; buf_pos := 0; buf_open := false |}],
     Ok tt) in
  dispatches "/img/Icon.SVG" = false
  /\ dispatches "/css/extman.css" = false
  /\ dispatches "/img/photo.jpg" = false
  /\ dispatches "/data/flags.json" = false
  /\ served "/img/Icon.SVG" [x3c; x73]%byte
     = reply "image/svg+xml" [x3c; x73]%byte
  /\ served "/css/extman.css" [x61]%byte = reply "text/css" [x61]%byte
  /\ served "/img/photo.jpg" [xff; xd8]%byte
     = reply "image/jpeg" [xff; xd8]%byte
  /\ served "/data/flags.json" [x7b; x7d]%byte
     = reply "text/plain" [x7b; x7d]%byte.
Proof.
  intros served reply.
  assert (H1 : dispatches "/img/Icon.SVG" = false) by (vm_compute; reflexivity).
  assert (H2 : dispatches "/css/extman.css" = false)
    by (vm_compute; reflexivity).
  assert (H3 : dispatches "/img/photo.jpg" = false)
    by (vm_compute; reflexivity).
  assert (H4 : dispatches "/data/flags.json" = false)
    by (vm_compute; reflexivity).
  do 4 (split; [assumption|]).
  split; [|split; [|split]].
  - exact (requestStarted_serves_file
             (file_host "/img/Icon.SVG" [x3c; x73]%byte)
             (file_url "/img/Icon.SVG") [] [x3c; x73]%byte H1 eq_refl eq_refl).
  - exact (requestStarted_serves_file
             (file_host "/css/extman.css" [x61]%byte)
             (file_url "/css/extman.css") [] [x61]%byte H2 eq_refl eq_refl).
  - exact (requestStarted_serves_file
             (file_host "/img/photo.jpg" [xff; xd8]%byte)
             (file_url "/img/photo.jpg") [] [xff; xd8]%byte H3 eq_refl eq_refl).
  - exact (requestStarted_serves_file
             (file_host "/data/flags.json" [x7b; x7d]%byte)
             (file_url "/data/flags.json") [] [x7b; x7d]%byte H4 eq_refl
             eq_refl).
Defined.

End MoreBridgeExamples.

(** ** protocol/flags.py: what the database holds, and what a package gets *)
Section MoreFlags.
Import Py Flags More.

Lemma load_flags_flat data h :
  load_flags data h
  = foldl (fun st x => add_item (fst x) st (snd x)) (h, ∅) (flat data).
Proof.
  unfold load_flags, flat. generalize (h, ∅ : gmap string loc) as st.
  induction data as [|[flagId flag] data IH]; intros st; [reflexivity|].
  cbn [foldl flat_map fst snd]. rewrite foldl_app, IH. f_equal.
  generalize st as st0. induction (items_of flag) as [|item items IHi];
    intros st0; [reflexivity|].
  cbn [foldl map fst snd]. apply IHi.
Qed.

Lemma elem_of_flat data flagId name mtype :
  (flagId, (name, mtype)) ∈ flat data
  <-> exists flag, (flagId, flag) ∈ data /\ (name, mtype) ∈ items_of flag.
Proof.
  unfold flat. rewrite list_elem_of_In, in_flat_map. split.
  - intros ([f flag] & Hin & Hx). apply in_map_iff in Hx as (item & Heq & Hitem).
    cbn [fst snd] in *. injection Heq as -> ->.
    exists flag. rewrite !list_elem_of_In. auto.
  - intros (flag & Hin & Hitem). rewrite !list_elem_of_In in *.
    exists (flagId, flag). split; [exact Hin|].
    apply in_map_iff. exists (name, mtype). auto.
Qed.

(** The names a flag lists are the items the loops meet, and the key is
    made of the type and of the name in lower case. *)
Lemma listed_items data key flagId :
  listed data key flagId
  <-> exists flag name mtype,
        (flagId, flag) ∈ data
        /\ (name, mtype) ∈ items_of flag
        /\ key = key_of mtype name.
Proof.
  unfold listed, items_of, key_of. split.
  - intros (flag & mtype & names & name & Hin & Ht & Hnames & Hname & ->).
    exists flag, name, mtype. split; [exact Hin|]. split; [|reflexivity].
    apply list_elem_of_In, in_app_iff. apply list_elem_of_In in Hname.
    destruct Ht as [->| ->]; rewrite Hnames; cbn [default];
      [left|right]; apply in_map_iff; eauto.
  - intros (flag & name & mtype & Hin & Hit & ->).
    apply list_elem_of_In, in_app_iff in Hit.
    destruct Hit as [Hit|Hit]; apply in_map_iff in Hit as (m & [= -> <-] & Hm);
      apply list_elem_of_In in Hm.
    + destruct (flag !! "Mod") as [names|] eqn:Hnames;
        [|cbn in Hm; apply elem_of_nil in Hm; contradiction].
      exists flag, "Mod", names, name. auto 10.
    + destruct (flag !! "Macro") as [names|] eqn:Hnames;
        [|cbn in Hm; apply elem_of_nil in Hm; contradiction].
      exists flag, "Macro", names, name. auto 10.
Qed.

Lemma content_inv_step seen st x :
  content_inv seen st ->
  content_inv (seen ++ [x]) (add_item (fst x) st (snd x)).
Proof.
  destruct st as [h db]. destruct x as [flagId0 [name mtype]].
  unfold content_inv, has_flag, add_item. cbn [fst snd].
  intros (Hinj & Hdom & Hval & Hseen).
  set (key0 := key_of mtype name).
  destruct (db !! key0) as [l|] eqn:Hk; cbn [fst snd dicts].
  - rewrite (insert_id db key0 l Hk).
    destruct (Hdom _ _ Hk) as [d0 Hd0].
    refine (conj Hinj (conj _ (conj _ _))).
    + intros key fl Hin.
      destruct (decide (l = fl)) as [<-|Hne].
      * rewrite lookup_alter_eq, Hd0. eauto.
      * rewrite lookup_alter_ne by exact Hne. eauto.
    + intros key fl d flagId v Hin Hd Hv.
      destruct (decide (l = fl)) as [<-|Hne].
      * rewrite lookup_alter_eq, Hd0 in Hd. injection Hd as <-.
        assert (Hkey : key = key0) by eauto.
        destruct (decide (flagId0 = flagId)) as [<-|Hf].
        -- rewrite lookup_insert_eq in Hv. injection Hv as <-.
           split; [reflexivity|]. exists (flagId0, (name, mtype)).
           split; [apply elem_of_app; right; apply list_elem_of_singleton;
                   reflexivity|].
           split; [reflexivity|]. symmetry. exact Hkey.
        -- rewrite lookup_insert_ne in Hv by exact Hf.
           destruct (Hval _ _ _ _ _ Hin Hd0 Hv) as (-> & x' & Hx' & Hrest).
           split; [reflexivity|]. exists x'.
           split; [apply elem_of_app; left; exact Hx'|exact Hrest].
      * rewrite lookup_alter_ne in Hd by exact Hne.
        destruct (Hval _ _ _ _ _ Hin Hd Hv) as (-> & x' & Hx' & Hrest).
        split; [reflexivity|]. exists x'.
        split; [apply elem_of_app; left; exact Hx'|exact Hrest].
    + intros x' Hx'. apply elem_of_app in Hx' as [Hx'|Hx'].
      * destruct (Hseen _ Hx') as (fl & d & Hfl & Hd & Hv).
        exists fl. destruct (decide (l = fl)) as [<-|Hne].
        -- exists (<[flagId0 := true]> d). rewrite lookup_alter_eq, Hd.
           split; [exact Hfl|]. split; [reflexivity|].
           destruct (decide (flagId0 = fst x')) as [<-|Hf].
           ++ apply lookup_insert_eq.
           ++ rewrite lookup_insert_ne by exact Hf. exact Hv.
        -- exists d. rewrite lookup_alter_ne by exact Hne. auto.
      * apply list_elem_of_singleton in Hx' as ->. cbn [fst snd]. fold key0.
        exists l, (<[flagId0 := true]> d0).
        rewrite lookup_alter_eq, Hd0, lookup_insert_eq. auto.
  - set (l := fresh (dom (dicts h))).
    assert (Hfresh : dicts h !! l = None) by apply not_elem_of_dom, is_fresh.
    assert (Hold : forall k fl, db !! k = Some fl -> fl <> l /\ k <> key0).
    { intros k fl Hin. split.
      - intros ->. destruct (Hdom _ _ Hin) as [? ?]. congruence.
      - intros ->. congruence. }
    refine (conj _ (conj _ (conj _ _))).
    + intros k1 k2 l' H1 H2.
      apply lookup_insert_key in H1 as [[<- ->]|H1];
        apply lookup_insert_key in H2 as [[<- E]|H2]; try reflexivity.
      * exfalso. destruct (Hold _ _ H2) as [Hne _]. contradiction.
      * exfalso. subst l'. destruct (Hold _ _ H1) as [Hne _]. contradiction.
      * eauto.
    + intros key fl Hin. apply lookup_insert_key in Hin as [[<- ->]|Hin].
      * rewrite lookup_insert_eq. eauto.
      * destruct (Hold _ _ Hin) as [Hne _].
        rewrite lookup_insert_ne by (intros E; apply Hne; symmetry; exact E).
        eauto.
    + intros key fl d flagId v Hin Hd Hv.
      apply lookup_insert_key in Hin as [[<- ->]|Hin].
      * rewrite lookup_insert_eq in Hd. injection Hd as <-.
        apply lookup_singleton_Some in Hv as [<- <-].
        split; [reflexivity|]. exists (flagId0, (name, mtype)).
        split; [apply elem_of_app; right; apply list_elem_of_singleton;
                reflexivity|].
        auto.
      * destruct (Hold _ _ Hin) as [Hne _].
        rewrite lookup_insert_ne in Hd
          by (intros E; apply Hne; symmetry; exact E).
        destruct (Hval _ _ _ _ _ Hin Hd Hv) as (-> & x' & Hx' & Hrest).
        split; [reflexivity|]. exists x'.
        split; [apply elem_of_app; left; exact Hx'|exact Hrest].
    + intros x' Hx'. apply elem_of_app in Hx' as [Hx'|Hx'].
      * destruct (Hseen _ Hx') as (fl & d & Hfl & Hd & Hv).
        destruct (Hold _ _ Hfl) as [Hne Hkne].
        exists fl, d.
        rewrite lookup_insert_ne by (intros E; apply Hkne; symmetry; exact E).
        rewrite lookup_insert_ne by (intros E; apply Hne; symmetry; exact E).
        auto.
      * apply list_elem_of_singleton in Hx' as ->. cbn [fst snd]. fold key0.
        exists l, {[flagId0 := true]}.
        rewrite !lookup_insert_eq, lookup_singleton_eq. auto.
Qed.

Lemma content_inv_fold xs seen st :
  content_inv seen st ->
  content_inv (seen ++ xs)
              (foldl (fun st x => add_item (fst x) st (snd x)) st xs).
Proof.
  revert seen st. induction xs as [|x xs IH]; intros seen st H.
  - rewrite app_nil_r. exact H.
  - cbn [foldl]. replace (seen ++ x :: xs) with ((seen ++ [x]) ++ xs)
      by (rewrite <- app_assoc; reflexivity).
    apply IH, content_inv_step, H.
Qed.

Lemma load_flags_inv data h : content_inv (flat data) (load_flags data h).
Proof.
  rewrite load_flags_flat. apply (content_inv_fold (flat data) [] (h, ∅)).
  refine (conj _ (conj _ (conj _ _))); cbn [fst snd].
  - intros k1 k2 l H. rewrite lookup_empty in H. discriminate.
  - intros key fl H. rewrite lookup_empty in H. discriminate.
  - intros key fl d flagId v H. rewrite lookup_empty in H. discriminate.
  - intros x H. apply elem_of_nil in H. contradiction.
Qed.

(** A call with an empty cache that parses [flags.json]. *)
Lemma get_flags_database_loads data p :
  cache p = None ->
  get_flags_database (Parsed data) p
  = (let st := load_flags data (mem p) in
     let l := fresh (dom (dbs (fst st))) in
     ({| mem := {| dicts := dicts (fst st);
                   dbs := <[l := snd st]> (dbs (fst st));
                   pkgs := pkgs (fst st) |};
         cache := Some l; reads := S (reads p) |}, Ok l)).
Proof. intros H. unfold get_flags_database. rewrite H. reflexivity. Qed.

(** What the two loops leave in the database. *)
Lemma load_flags_content data h :
  let st := load_flags data h in
  (forall key flagId, has_flag st key flagId <-> listed data key flagId)
  /\ (forall key,
        is_Some (snd st !! key) <-> exists flagId, listed data key flagId)
  /\ (forall key fl d flagId v,
        snd st !! key = Some fl -> dicts (fst st) !! fl = Some d ->
        d !! flagId = Some v -> v = true)
  /\ (forall k1 k2 l,
        snd st !! k1 = Some l -> snd st !! k2 = Some l -> k1 = k2).
Proof.
  intros st.
  pose proof (load_flags_inv data h) as (Hinj & Hdom & Hval & Hseen).
  pose proof (load_flags_loaded data h) as (_ & _ & _ & Hnew).
  fold st in Hinj, Hdom, Hval, Hseen, Hnew.
  assert (Hhas : forall key flagId,
            has_flag st key flagId <-> listed data key flagId).
  { intros key flagId. split.
    - intros (fl & d & Hfl & Hd & Hv).
      destruct (Hval _ _ _ _ _ Hfl Hd Hv) as (_ & [f [n m]] & Hx & Hf & Hk).
      cbn [fst snd] in *. subst f. apply elem_of_flat in Hx as (flag & Hin & Hit).
      apply listed_items. exists flag, n, m. auto.
    - intros Hl. apply listed_items in Hl as (flag & n & m & Hin & Hit & ->).
      apply (Hseen (flagId, (n, m))). apply elem_of_flat. eauto. }
  split; [exact Hhas|]. split; [|split; [|exact Hinj]].
  - intros key. split.
    + intros [fl Hfl]. destruct (Hnew _ _ Hfl) as (_ & d & Hd & Ht).
      apply dict_truthy_iff, map_choose in Ht as (flagId & v & Hv).
      exists flagId. apply Hhas. exists fl, d.
      destruct (Hval _ _ _ _ _ Hfl Hd Hv) as (-> & _). auto.
    + intros (flagId & Hl). apply Hhas in Hl as (fl & d & Hfl & _). eauto.
  - intros key fl d flagId v Hfl Hd Hv.
    destruct (Hval _ _ _ _ _ Hfl Hd Hv) as (-> & _). reflexivity.
Qed.

(** The database that [get_flags_database] loads has a flag under a key
    exactly when [flags.json] lists, under that flag, a module or macro
    whose type and name in lower case make the key; a key is in the
    database exactly when some flag lists it; every flag stored is [True];
    and no two keys share a dictionary. *)
Theorem flags_database_content (data : list (string * flag_entry))
        (p p1 : process) (dbl : loc) :
  cache p = None ->
  get_flags_database (Parsed data) p = (p1, Ok dbl) ->
  exists db,
    dbs (mem p1) !! dbl = Some db
    /\ (forall key flagId,
          has_flag (mem p1, db) key flagId <-> listed data key flagId)
    /\ (forall key,
          is_Some (db !! key) <-> exists flagId, listed data key flagId)
    /\ (forall key fl d flagId v,
          db !! key = Some fl -> dicts (mem p1) !! fl = Some d ->
          d !! flagId = Some v -> v = true)
    /\ (forall k1 k2 l, db !! k1 = Some l -> db !! k2 = Some l -> k1 = k2).
Proof.
  intros Hc Hget. rewrite (get_flags_database_loads data p Hc) in Hget.
  cbv zeta in Hget. injection Hget as <- <-.
  exists (snd (load_flags data (mem p))). cbn [mem dbs dicts].
  split; [apply lookup_insert_eq|].
  exact (load_flags_content data (mem p)).
Qed.

(** *** What [apply_predefined_flags] does, by cases *)

Lemma apply_predefined_flags_inv file pkg p p2 r :
  apply_predefined_flags file pkg p = (p2, Ok r) ->
  r = pkg
  /\ exists info p1 dbl db,
       pkgs (mem p) !! pkg = Some info
       /\ get_flags_database file p = (p1, Ok dbl)
       /\ dbs (mem p1) !! dbl = Some db
       /\ match db !! package_key info with
          | None => p2 = p1
          | Some fl =>
              exists found,
                dicts (mem p1) !! fl = Some found
                /\ if dict_truthy found then
                     match flags info with
                     | None => p2 = fst (set_flags pkg info fl p1)
                     | Some l =>
                         exists mine,
                           dicts (mem p1) !! l = Some mine
                           /\ p2 = if dict_truthy mine
                                   then fst (update_dict l found p1)
                                   else fst (set_flags pkg info fl p1)
                     end
                   else p2 = p1
          end.
Proof.
  unfold apply_predefined_flags, bind, get, the.
  destruct (pkgs (mem p) !! pkg) as [info|] eqn:Hpkg; [|discriminate].
  unfold ret at 1.
  destruct (get_flags_database file p) as [p1 [dbl|e]] eqn:Hget; [|discriminate].
  destruct (dbs (mem p1) !! dbl) as [db|] eqn:Hdb; [|discriminate].
  unfold ret at 1. fold (package_key info).
  intros H.
  assert (Hgoal : r = pkg /\
    match db !! package_key info with
    | None => p2 = p1
    | Some fl =>
        exists found,
          dicts (mem p1) !! fl = Some found
          /\ if dict_truthy found then
               match flags info with
               | None => p2 = fst (set_flags pkg info fl p1)
               | Some l =>
                   exists mine,
                     dicts (mem p1) !! l = Some mine
                     /\ p2 = if dict_truthy mine
                             then fst (update_dict l found p1)
                             else fst (set_flags pkg info fl p1)
               end
             else p2 = p1
    end).
  { destruct (db !! package_key info) as [fl|].
    - destruct (dicts (mem p1) !! fl) as [found|]; [|discriminate].
      unfold ret at 1 in H.
      destruct (dict_truthy found) eqn:Hf.
      + destruct (flags info) as [l|].
        * destruct (dicts (mem p1) !! l) as [mine|]; [|discriminate].
          unfold ret at 1 in H. destruct (dict_truthy mine) eqn:Hm.
          -- unfold update_dict, modify, ret in *. injection H as <- <-.
             split; [reflexivity|]. exists found. split; [reflexivity|].
             rewrite Hf. exists mine. split; [reflexivity|].
             rewrite Hm. reflexivity.
          -- unfold set_flags, modify, ret in *. injection H as <- <-.
             split; [reflexivity|]. exists found. split; [reflexivity|].
             rewrite Hf. exists mine. split; [reflexivity|].
             rewrite Hm. reflexivity.
        * unfold set_flags, modify, ret in *. injection H as <- <-.
          split; [reflexivity|]. exists found. split; [reflexivity|].
          rewrite Hf. reflexivity.
      + unfold ret in H. injection H as <- <-. split; [reflexivity|].
        exists found. split; [reflexivity|]. rewrite Hf. reflexivity.
    - unfold ret in H. injection H as <- <-. auto. }
  destruct Hgoal as [-> Hcase]. split; [reflexivity|].
  exists info, p1, dbl, db. auto.
Qed.

(** The other way round: the call, from what it finds. *)
Lemma apply_predefined_flags_run file pkg p info p1 dbl db :
  pkgs (mem p) !! pkg = Some info ->
  get_flags_database file p = (p1, Ok dbl) ->
  dbs (mem p1) !! dbl = Some db ->
  apply_predefined_flags file pkg p =
  match db !! package_key info with
  | None => (p1, Ok pkg)
  | Some fl =>
      match dicts (mem p1) !! fl with
      | None => (p1, Raise (AttributeError "flags"))
      | Some found =>
          if dict_truthy found then
            match flags info with
            | None => (fst (set_flags pkg info fl p1), Ok pkg)
            | Some l =>
                match dicts (mem p1) !! l with
                | None => (p1, Raise (AttributeError "flags"))
                | Some mine =>
                    if dict_truthy mine
                    then (fst (update_dict l found p1), Ok pkg)
                    else (fst (set_flags pkg info fl p1), Ok pkg)
                end
            end
          else (p1, Ok pkg)
      end
  end.
Proof.
  intros Hpkg Hget Hdb. unfold apply_predefined_flags, bind, get, the.
  rewrite Hpkg. unfold ret at 1. rewrite Hget, Hdb. unfold ret at 1.
  fold (package_key info).
  destruct (db !! package_key info) as [fl|]; [|reflexivity].
  destruct (dicts (mem p1) !! fl) as [found|]; [|reflexivity].
  unfold ret at 1. destruct (dict_truthy found); [|reflexivity].
  destruct (flags info) as [l|]; [|reflexivity].
  destruct (dicts (mem p1) !! l) as [mine|]; [|reflexivity].
  unfold ret at 1. destruct (dict_truthy mine); reflexivity.
Qed.

Lemma flags_of_eq h pkg info :
  pkgs h !! pkg = Some info ->
  flags_of h pkg = match flags info with
                   | Some l => default ∅ (dicts h !! l)
                   | None => ∅
                   end.
Proof. intros H. unfold flags_of. rewrite H. reflexivity. Qed.

(** A package gets the flags that [flags.json] lists for its key, each
    [True], and keeps the ones it had: after [apply_predefined_flags] on a
    package of a well-formed process whose database is loaded by the call,
    the flags of the package are those listed for its key and those it had
    before, and no other.  The key is the type of the package, [Mod] for a
    [Workbench], a colon, and its name in lower case. *)
Theorem apply_predefined_flags_listed (data : list (string * flag_entry))
        (p : process) (pkg : loc) (info : PackageInfo) :
  wf p -> cache p = None -> pkgs (mem p) !! pkg = Some info ->
  let key :=
    (if String.eqb (type info) "Workbench" then "Mod" else type info)
    +:+ ":" +:+ lower (name info) in
  exists p2,
    apply_predefined_flags (Parsed data) pkg p = (p2, Ok pkg)
    /\ (forall flagId,
          listed data key flagId ->
          flags_of (mem p2) pkg !! flagId = Some true)
    /\ (forall flagId,
          is_Some (flags_of (mem p2) pkg !! flagId)
          <-> listed data key flagId
              \/ is_Some (flags_of (mem p) pkg !! flagId)).
Proof.
  intros [_ Hwf] Hc Hpkg key.
  change key with (package_key info). clear key.
  pose proof (get_flags_database_loads data p Hc) as Hget. cbv zeta in Hget.
  pose proof (load_flags_content data (mem p)) as (Hhas & Hkeys & Htrue & _).
  pose proof (load_flags_loaded data (mem p)) as (Hpk & _ & Hold & Hnew).
  cbv zeta in Hhas, Hkeys, Htrue.
  set (st := load_flags data (mem p)) in *.
  set (p1 := {| mem := {| dicts := dicts (fst st);
                          dbs := <[fresh (dom (dbs (fst st))) := snd st]>
                                   (dbs (fst st));
                          pkgs := pkgs (fst st) |};
                cache := Some (fresh (dom (dbs (fst st))));
                reads := S (reads p) |}) in *.
  assert (Hdb : dbs (mem p1) !! fresh (dom (dbs (fst st))) = Some (snd st))
    by apply lookup_insert_eq.
  rewrite (apply_predefined_flags_run _ _ _ _ _ _ _ Hpkg Hget Hdb).
  assert (Hpkg1 : pkgs (mem p1) !! pkg = Some info).
  { cbn [p1 mem pkgs]. rewrite Hpk. exact Hpkg. }
  assert (Hsame : flags_of (mem p1) pkg = flags_of (mem p) pkg).
  { rewrite (flags_of_eq _ _ _ Hpkg1), (flags_of_eq _ _ _ Hpkg).
    destruct (flags info) as [l|] eqn:Hl; [|reflexivity].
    cbn [p1 mem dicts]. rewrite Hold; [reflexivity|]. eauto. }
  destruct (snd st !! package_key info) as [fl|] eqn:Hkey.
  - destruct (Hnew _ _ Hkey) as (_ & found & Hfound & Ht).
    cbn [p1 mem dicts]. rewrite Hfound, Ht.
    assert (Hf : forall flagId,
              listed data (package_key info) flagId
              <-> found !! flagId = Some true).
    { intros flagId. rewrite <- Hhas. split.
      - intros (fl' & d & Hfl' & Hd & Hv). congruence.
      - intros Hv. exists fl, found. auto. }
    assert (Hfs : forall flagId,
              is_Some (found !! flagId) <-> listed data (package_key info) flagId).
    { intros flagId. rewrite Hf. split; [|eauto].
      intros [v Hv]. rewrite (Htrue _ _ _ _ _ Hkey Hfound Hv) in Hv. exact Hv. }
    assert (Hset : forall q,
              q = fst (set_flags pkg info fl p1) ->
              flags_of (mem q) pkg = found).
    { intros q ->. unfold set_flags, modify, flags_of.
      cbn [fst mem pkgs dicts p1]. rewrite lookup_insert_eq. cbn [flags].
      rewrite Hfound. reflexivity. }
    destruct (flags info) as [l|] eqn:Hl.
    + destruct (Hwf _ _ _ Hpkg Hl) as [mine Hmine].
      assert (Hmine1 : dicts (fst st) !! l = Some mine).
      { rewrite Hold; [exact Hmine|]. eauto. }
      assert (Hbefore : flags_of (mem p) pkg = mine).
      { rewrite (flags_of_eq _ _ _ Hpkg), Hl, Hmine. reflexivity. }
      rewrite Hmine1. destruct (dict_truthy mine) eqn:Hm.
      * eexists. split; [reflexivity|].
        assert (Hafter : flags_of (mem (fst (update_dict l found p1))) pkg
                         = found ∪ mine).
        { unfold update_dict, modify, flags_of.
          cbn [fst mem pkgs dicts p1]. rewrite Hpk, Hpkg, Hl.
          rewrite lookup_alter_eq, Hmine1. reflexivity. }
        rewrite Hafter, Hbefore. split.
        -- intros flagId Hlisted. apply lookup_union_Some_l, Hf, Hlisted.
        -- intros flagId. rewrite lookup_union_is_Some, Hfs. reflexivity.
      * eexists. split; [reflexivity|].
        rewrite (Hset _ eq_refl), Hbefore.
        assert (Hempty : mine = ∅).
        { destruct (decide (mine = ∅)) as [E|E]; [exact E|].
          apply dict_truthy_iff in E. congruence. }
        split.
        -- intros flagId. apply Hf.
        -- intros flagId. rewrite Hfs, Hempty, lookup_empty. split; [auto|].
           intros [H|[? H]]; [exact H|discriminate].
    + eexists. split; [reflexivity|].
      rewrite (Hset _ eq_refl), (flags_of_eq _ _ _ Hpkg), Hl.
      split.
      * intros flagId. apply Hf.
      * intros flagId. rewrite Hfs, lookup_empty. split; [auto|].
        intros [H|[? H]]; [exact H|discriminate].
  - exists p1. split; [reflexivity|]. rewrite Hsame.
    assert (Hnone : forall flagId, ~ listed data (package_key info) flagId).
    { intros flagId Hl.
      assert (Hs : is_Some (snd st !! package_key info)) by (apply Hkeys; eauto).
      rewrite Hkey in Hs. destruct Hs as [? Hs]. discriminate. }
    split.
    + intros flagId Hl. exfalso. eapply Hnone, Hl.
    + intros flagId. split; [auto|]. intros [Hl|H]; [|exact H].
      exfalso. eapply Hnone, Hl.
Qed.

(** *** Applying twice, and to two packages *)

Lemma update_dict_same l found d q :
  dicts (mem q) !! l = Some d -> found ∪ d = d ->
  fst (update_dict l found q) = q.
Proof.
  intros Hl Hu. unfold update_dict, modify. cbn [fst].
  rewrite (alter_present _ _ _ _ Hl), Hu, (insert_id _ _ _ Hl).
  destruct q as [[? ? ?] ? ?]. reflexivity.
Qed.

Lemma package_key_set_flags info fl :
  package_key {| type := type info; name := name info; flags := Some fl |}
  = package_key info.
Proof. reflexivity. Qed.

(** [apply_predefined_flags] is idempotent: after a call that returned, a
    second call for the same package, whatever [flags.json] has become,
    returns the package again and leaves the process as it is. *)
Theorem apply_predefined_flags_idempotent (file file' : resource)
        (pkg r : loc) (p p2 : process) :
  apply_predefined_flags file pkg p = (p2, Ok r) ->
  apply_predefined_flags file' pkg p2 = (p2, Ok r).
Proof.
  intros H.
  apply apply_predefined_flags_inv in H
    as (-> & info & p1 & dbl & db & Hpkg & Hget & Hdb & Hcase).
  pose proof (get_flags_database_returns _ _ _ _ Hget) as (Hc & Hpk & _).
  assert (Hpkg1 : pkgs (mem p1) !! pkg = Some info) by (rewrite Hpk; exact Hpkg).
  assert (Hset : forall fl found,
            db !! package_key info = Some fl ->
            dicts (mem p1) !! fl = Some found -> dict_truthy found = true ->
            apply_predefined_flags file' pkg (fst (set_flags pkg info fl p1))
            = (fst (set_flags pkg info fl p1), Ok pkg)).
  { intros fl found Hkey Hfound Ht.
    set (q := fst (set_flags pkg info fl p1)).
    assert (Hq : get_flags_database file' q = (q, Ok dbl)).
    { apply get_flags_database_hit. exact Hc. }
    assert (Hqpkg : pkgs (mem q) !! pkg
                    = Some {| type := type info; name := name info;
                              flags := Some fl |}).
    { apply lookup_insert_eq. }
    assert (Hqdb : dbs (mem q) !! dbl = Some db) by exact Hdb.
    rewrite (apply_predefined_flags_run _ _ _ _ _ _ db Hqpkg Hq Hqdb).
    rewrite package_key_set_flags, Hkey.
    change (dicts (mem q)) with (dicts (mem p1)). rewrite Hfound, Ht.
    cbn [flags]. rewrite Hfound, Ht.
    rewrite (update_dict_same fl found found q Hfound); [reflexivity|].
    apply (idemp_L (∪)). }
  destruct (db !! package_key info) as [fl|] eqn:Hkey.
  - destruct Hcase as (found & Hfound & Hcase).
    destruct (dict_truthy found) eqn:Ht.
    + destruct (flags info) as [l|] eqn:Hl.
      * destruct Hcase as (mine & Hmine & ->).
        destruct (dict_truthy mine) eqn:Hm; [|eauto].
        set (q := fst (update_dict l found p1)).
        assert (Hq : get_flags_database file' q = (q, Ok dbl)).
        { apply get_flags_database_hit. exact Hc. }
        assert (Hql : dicts (mem q) !! l = Some (found ∪ mine)).
        { unfold q, update_dict, modify. cbn [fst mem dicts].
          rewrite lookup_alter_eq, Hmine. reflexivity. }
        assert (Hqfl : dicts (mem q) !! fl = Some found).
        { destruct (decide (l = fl)) as [<-|Hne].
          - rewrite Hql. assert (mine = found) by congruence. subst mine.
            f_equal. apply (idemp_L (∪)).
          - unfold q, update_dict, modify. cbn [fst mem dicts].
            rewrite lookup_alter_ne by exact Hne. exact Hfound. }
        assert (Hqpkg : pkgs (mem q) !! pkg = Some info) by exact Hpkg1.
        assert (Hqdb : dbs (mem q) !! dbl = Some db) by exact Hdb.
        rewrite (apply_predefined_flags_run _ _ _ _ _ _ db Hqpkg Hq Hqdb).
        rewrite Hkey, Hqfl, Ht, Hl, Hql, (dict_truthy_union _ _ Hm).
        rewrite (update_dict_same l found (found ∪ mine) q Hql); [reflexivity|].
        rewrite (assoc_L (∪)), (idemp_L (∪)). reflexivity.
      * subst p2. eauto.
    + subst p2.
      assert (Hq : get_flags_database file' p1 = (p1, Ok dbl)).
      { apply get_flags_database_hit. exact Hc. }
      rewrite (apply_predefined_flags_run _ _ _ _ _ _ db Hpkg1 Hq Hdb).
      rewrite Hkey, Hfound, Ht. reflexivity.
  - subst p2.
    assert (Hq : get_flags_database file' p1 = (p1, Ok dbl)).
    { apply get_flags_database_hit. exact Hc. }
    rewrite (apply_predefined_flags_run _ _ _ _ _ _ db Hpkg1 Hq Hdb).
    rewrite Hkey. reflexivity.
Qed.

(** Two packages with the same key and no flags of their own end up with
    one and the same dictionary, the one of the database: nothing is
    copied, so what is later merged into the flags of one shows in the
    flags of the other and in the database. *)
Theorem apply_predefined_flags_shares (file file' : resource) (a b : loc)
        (p p2 p3 : process) (ia ib : PackageInfo) :
  wf p -> a <> b ->
  pkgs (mem p) !! a = Some ia -> pkgs (mem p) !! b = Some ib ->
  flags ia = None -> flags ib = None ->
  package_key ia = package_key ib ->
  apply_predefined_flags file a p = (p2, Ok a) ->
  apply_predefined_flags file' b p2 = (p3, Ok b) ->
  exists dbl db,
    cache p3 = Some dbl /\ dbs (mem p3) !! dbl = Some db
    /\ pkgs (mem p3) !! a
       = Some {| type := type ia; name := name ia;
                 flags := db !! package_key ia |}
    /\ pkgs (mem p3) !! b
       = Some {| type := type ib; name := name ib;
                 flags := db !! package_key ia |}.
Proof.
  intros Hwf Hab Ha Hb Hfa Hfb Hkeys H1 H2.
  apply apply_predefined_flags_inv in H1
    as (_ & info & p1 & dbl & db & Hpkg & Hget & Hdb & Hcase).
  assert (info = ia) by congruence. subst info.
  pose proof (get_flags_database_returns _ _ _ _ Hget)
    as (Hc & Hpk & _ & _ & Hwf1).
  destruct (Hwf1 Hwf) as [Hcached _].
  destruct (Hcached _ Hc) as (db' & Hdb' & Hentries).
  assert (db' = db) by congruence. subst db'.
  exists dbl, db.
  assert (Heta : forall i : PackageInfo,
            flags i = None ->
            i = {| type := type i; name := name i; flags := None |}).
  { intros [t n f] Hf. cbn in Hf. subst f. reflexivity. }
  destruct (db !! package_key ia) as [fl|] eqn:Hkey.
  - destruct Hcase as (found & Hfound & Hcase).
    destruct (Hentries _ _ Hkey) as (found' & Hfound' & Ht).
    assert (found' = found) by congruence. subst found'.
    rewrite Ht, Hfa in Hcase. subst p2.
    set (q := fst (set_flags a ia fl p1)) in *.
    assert (Hq : get_flags_database file' q = (q, Ok dbl)).
    { apply get_flags_database_hit. exact Hc. }
    assert (Hqb : pkgs (mem q) !! b = Some ib).
    { unfold q, set_flags, modify. cbn [fst mem pkgs].
      rewrite lookup_insert_ne by exact Hab. rewrite Hpk. exact Hb. }
    assert (Hqdb : dbs (mem q) !! dbl = Some db) by exact Hdb.
    rewrite (apply_predefined_flags_run _ _ _ _ _ _ db Hqb Hq Hqdb) in H2.
    rewrite <- Hkeys, Hkey in H2.
    change (dicts (mem q)) with (dicts (mem p1)) in H2.
    rewrite Hfound, Ht, Hfb in H2. injection H2 as <-.
    unfold q, set_flags, modify. cbn [fst mem pkgs dbs cache].
    split; [exact Hc|]. split; [exact Hdb|]. split.
    + rewrite lookup_insert_ne by (intros E; apply Hab; symmetry; exact E).
      apply lookup_insert_eq.
    + apply lookup_insert_eq.
  - subst p2.
    assert (Hq : get_flags_database file' p1 = (p1, Ok dbl)).
    { apply get_flags_database_hit. exact Hc. }
    assert (Hb1 : pkgs (mem p1) !! b = Some ib) by (rewrite Hpk; exact Hb).
    rewrite (apply_predefined_flags_run _ _ _ _ _ _ db Hb1 Hq Hdb) in H2.
    rewrite <- Hkeys, Hkey in H2. injection H2 as <-.
    split; [exact Hc|]. split; [exact Hdb|]. rewrite Hpk. split.
    + rewrite Ha. f_equal. apply Heta, Hfa.
    + rewrite Hb. f_equal. apply Heta, Hfb.
Qed.

End MoreFlags.

Section MoreFlagsExamples.
Import Py Flags More Examples.

(** The database of [flags_json]: the module [a2plus] is obsolete and for
    Python 2 only, the macro [foo] is for Python 2 only and not obsolete,
    and nothing is kept under the empty key. *)
Lemma flags_database_content_witness :
  let out := get_flags_database (Parsed flags_json) start in
  cache start = None
  /\ out = (fst out, Ok 1%positive)
  /\ exists db,
       dbs (mem (fst out)) !! 1%positive = Some db
       /\ has_flag (mem (fst out), db) "Mod:a2plus" "obsolete"
       /\ has_flag (mem (fst out), db) "Mod:a2plus" "py2only"
       /\ has_flag (mem (fst out), db) "Macro:foo" "py2only"
       /\ is_Some (db !! "Mod:defeaturing")
       /\ db !! "Macro:foo" <> db !! "Mod:a2plus".
Proof.
  intros out.
  assert (Hout : out = (fst out, Ok 1%positive)) by (vm_compute; reflexivity).
  split; [reflexivity|]. split; [exact Hout|].
  destruct (flags_database_content flags_json start (fst out) 1%positive
              eq_refl Hout) as (db & Hdb & Hhas & Hkeys & _ & Hinj).
  assert (H1 : listed flags_json "Mod:a2plus" "obsolete").
  { exists {["Mod" := ["A2plus"; "Defeaturing"]]}, "Mod",
           ["A2plus"; "Defeaturing"], "A2plus".
    split; [apply list_elem_of_here|]. split; [auto|].
    split; [reflexivity|]. split; [apply list_elem_of_here|reflexivity]. }
  assert (H2 : listed flags_json "Mod:a2plus" "py2only").
  { exists (<["Macro" := ["Foo"]]> {["Mod" := ["a2PLUS"]]}), "Mod",
           ["a2PLUS"], "a2PLUS".
    split; [apply list_elem_of_further, list_elem_of_here|]. split; [auto|].
    split; [reflexivity|]. split; [apply list_elem_of_here|reflexivity]. }
  assert (H3 : listed flags_json "Macro:foo" "py2only").
  { exists (<["Macro" := ["Foo"]]> {["Mod" := ["a2PLUS"]]}), "Macro",
           ["Foo"], "Foo".
    split; [apply list_elem_of_further, list_elem_of_here|]. split; [auto|].
    split; [reflexivity|]. split; [apply list_elem_of_here|reflexivity]. }
  assert (H4 : listed flags_json "Mod:defeaturing" "obsolete").
  { exists {["Mod" := ["A2plus"; "Defeaturing"]]}, "Mod",
           ["A2plus"; "Defeaturing"], "Defeaturing".
    split; [apply list_elem_of_here|]. split; [auto|].
    split; [reflexivity|].
    split; [apply list_elem_of_further, list_elem_of_here|reflexivity]. }
  exists db. split; [exact Hdb|].
  split; [apply Hhas, H1|]. split; [apply Hhas, H2|].
  split; [apply Hhas, H3|]. split; [apply Hkeys; eauto|].
  intros Heq.
  assert (Hs : is_Some (db !! "Macro:foo")) by (apply Hkeys; eauto).
  destruct Hs as [l Hl]. rewrite Hl in Heq. symmetry in Heq.
  discriminate (Hinj "Macro:foo" "Mod:a2plus" l Hl Heq).
Defined.

(** [A2Plus], a workbench, is listed as the module [A2plus] under
    [obsolete] and as [a2PLUS] under [py2only]: it gets both flags. *)
Lemma apply_predefined_flags_listed_witness :
  wf one_package
  /\ cache one_package = None
  /\ pkgs (mem one_package) !! 1%positive = Some a2plus
  /\ exists p2,
       apply_predefined_flags (Parsed flags_json) 1%positive one_package
       = (p2, Ok 1%positive)
       /\ flags_of (mem p2) 1%positive !! "obsolete" = Some true
       /\ flags_of (mem p2) 1%positive !! "py2only" = Some true.
Proof.
  assert (Hpkg : pkgs (mem one_package) !! 1%positive = Some a2plus).
  { vm_compute. reflexivity. }
  split; [exact wf_one_package|]. split; [reflexivity|]. split; [exact Hpkg|].
  destruct (apply_predefined_flags_listed flags_json one_package 1%positive
              a2plus wf_one_package eq_refl Hpkg) as (p2 & Hrun & Hl & _).
  exists p2. split; [exact Hrun|]. split; apply Hl.
  - exists {["Mod" := ["A2plus"; "Defeaturing"]]}, "Mod",
           ["A2plus"; "Defeaturing"], "A2plus".
    split; [apply list_elem_of_here|]. split; [auto|].
    split; [reflexivity|]. split; [apply list_elem_of_here|reflexivity].
  - exists (<["Macro" := ["Foo"]]> {["Mod" := ["a2PLUS"]]}), "Mod",
           ["a2PLUS"], "a2PLUS".
    split; [apply list_elem_of_further, list_elem_of_here|]. split; [auto|].
    split; [reflexivity|]. split; [apply list_elem_of_here|reflexivity].
Defined.

Lemma apply_predefined_flags_idempotent_witness :
  let out := apply_predefined_flags (Parsed flags_json) 1%positive one_package in
  out = (fst out, Ok 1%positive)
  /\ apply_predefined_flags (Unreadable json_error) 1%positive (fst out)
     = (fst out, Ok 1%positive).
Proof.
  intros out.
  assert (Hout : out = (fst out, Ok 1%positive)) by (vm_compute; reflexivity).
  split; [exact Hout|].
  exact (apply_predefined_flags_idempotent (Parsed flags_json)
           (Unreadable json_error) 1%positive 1%positive one_package (fst out)
           Hout).
Defined.

Lemma apply_predefined_flags_shares_witness :
  let first :=
    apply_predefined_flags (Parsed flags_json) 1%positive two_packages in
  let second :=
    apply_predefined_flags (Parsed flags_json) 2%positive (fst first) in
  wf two_packages
  /\ pkgs (mem two_packages) !! 1%positive = Some a2plus
  /\ pkgs (mem two_packages) !! 2%positive = Some a2plus_mod
  /\ package_key a2plus = package_key a2plus_mod
  /\ first = (fst first, Ok 1%positive)
  /\ second = (fst second, Ok 2%positive)
  /\ exists l,
       flags <$> pkgs (mem (fst second)) !! 1%positive = Some (Some l)
       /\ flags <$> pkgs (mem (fst second)) !! 2%positive = Some (Some l).
Proof.
  intros first second.
  assert (Hwf : wf two_packages).
  { apply new_package_wf; [exact wf_one_package|]. intros l [=]. }
  assert (Ha : pkgs (mem two_packages) !! 1%positive = Some a2plus)
    by (vm_compute; reflexivity).
  assert (Hb : pkgs (mem two_packages) !! 2%positive = Some a2plus_mod)
    by (vm_compute; reflexivity).
  assert (H1 : first = (fst first, Ok 1%positive)) by (vm_compute; reflexivity).
  assert (H2 : second = (fst second, Ok 2%positive))
    by (vm_compute; reflexivity).
  do 3 (split; [assumption|]). split; [reflexivity|].
  do 2 (split; [assumption|]).
  assert (Hne : 1%positive <> 2%positive) by discriminate.
  destruct (apply_predefined_flags_shares (Parsed flags_json)
              (Parsed flags_json) 1%positive 2%positive two_packages
              (fst first) (fst second) a2plus a2plus_mod
              Hwf Hne Ha Hb eq_refl eq_refl eq_refl H1 H2)
    as (dbl & db & Hc & Hdb & Hpa & Hpb).
  assert (Hl : db !! package_key a2plus = Some 1%positive).
  { assert (Hdb' : dbs (mem (fst second)) !! dbl
                   = Some (snd (load_flags flags_json (mem two_packages)))).
    { assert (Hdbl : dbl = 1%positive).
      { assert (Hc' : cache (fst second) = Some 1%positive)
          by (vm_compute; reflexivity).
        congruence. }
      subst dbl. vm_compute. reflexivity. }
    rewrite Hdb' in Hdb. injection Hdb as <-. vm_compute. reflexivity. }
  exists 1%positive. rewrite Hpa, Hpb. cbn [fmap option_fmap option_map flags].
  rewrite Hl. split; reflexivity.
Defined.

End MoreFlagsExamples.

(** ** protocol/http.py: the initialisation across calls, and the two
    readers of a stream *)
Section MoreHttp.
Import Py Http.

Variable env : Env.

Lemma urllibInit_initialises s :
  snd (urllibInit env s) = Ok tt ->
  request_initialized (fst (urllibInit env s)) = true.
Proof.
  rewrite urllibInit_run.
  destruct (request_initialized s) eqn:Hs; [intros _; exact Hs|].
  destruct (getProxyConf env) as [ph|e]; [|discriminate].
  destruct (build_opener env ph (getSslHandler env)) as [[]|e];
    [reflexivity|discriminate].
Qed.

Lemma download_loop_initialized path f n s :
  request_initialized (fst (download_loop env path f n s))
  = request_initialized s.
Proof.
  destruct (download_loop_trace env path f n s) as [w ->]. reflexivity.
Qed.

(** The state [httpGet] leaves keeps the flag [urllibInit] left. *)
Lemma httpGet_initialized url headers timeout decode s :
  request_initialized (fst (httpGet env url headers timeout decode s))
  = request_initialized (fst (urllibInit env s)).
Proof.
  rewrite httpGet_run.
  destruct (urllibInit env s) as [s1 [[]|e]]; [|reflexivity].
  destruct (Request_init env url (headers_or_empty headers)) as [[]|e];
    reflexivity.
Qed.

Lemma httpDownload_initialized url path headers timeout s :
  request_initialized (fst (httpDownload env url path headers timeout s))
  = request_initialized (fst (urllibInit env s)).
Proof.
  rewrite httpDownload_run.
  destruct (urllibInit env s) as [s1 [[]|e]]; [|reflexivity].
  cbv zeta. cbn [fst].
  destruct (Request_init env url (headers_or_empty headers)) as [[]|e];
    [|reflexivity].
  destruct (urlopen env _ timeout) as [f|e]; [|reflexivity].
  destruct (open_wb env path) as [[]|e]; [|reflexivity].
  pose proof (download_loop_initialized path f 0
                {| request_initialized := request_initialized s1;
                   trace := trace s1 ++ [UrlOpen (request_of url headers) timeout] |})
    as Hl.
  destruct (download_loop env path f 0 _) as [s3 [n|e]]; cbn [fst] in Hl.
  - destruct (file_close env path n) as [[]|e]; cbn [fst request_initialized];
      exact Hl.
  - cbn [fst request_initialized]. exact Hl.
Qed.

(** In an initialised module both functions return. *)
Lemma http_returns_initialised url path headers timeout decode s :
  request_initialized s = true ->
  (exists v, snd (httpGet env url headers timeout decode s) = Ok v)
  /\ (exists b, snd (httpDownload env url path headers timeout s) = Ok b).
Proof.
  intros Hs. pose proof (urllibInit_again env s Hs) as Hinit. split.
  - rewrite httpGet_run, Hinit.
    destruct (Request_init env url (headers_or_empty headers)) as [[]|e];
      cbv zeta; cbn [snd]; eauto.
  - rewrite httpDownload_run, Hinit. cbv zeta.
    destruct (Request_init env url (headers_or_empty headers)) as [[]|e];
      [|cbn [snd]; eauto].
    destruct (urlopen env _ timeout) as [f|e]; [|cbn [snd]; eauto].
    destruct (open_wb env path) as [[]|e]; [|cbn [snd]; eauto].
    destruct (download_loop env path f 0 _) as [s3 [n|e]];
      [|cbn [snd]; eauto].
    destruct (file_close env path n) as [[]|e]; cbn [snd]; eauto.
Qed.

(** A call that returns leaves the module initialised. *)
Lemma httpGet_returns_initialised url headers timeout decode s v :
  snd (httpGet env url headers timeout decode s) = Ok v ->
  request_initialized (fst (httpGet env url headers timeout decode s)) = true.
Proof.
  intros Hv. rewrite httpGet_initialized. apply urllibInit_initialises.
  revert Hv. rewrite httpGet_run.
  destruct (urllibInit env s) as [s1 [[]|e]]; [reflexivity|discriminate].
Qed.

Lemma httpDownload_returns_initialised url path headers timeout s b :
  snd (httpDownload env url path headers timeout s) = Ok b ->
  request_initialized (fst (httpDownload env url path headers timeout s))
  = true.
Proof.
  intros Hb. rewrite httpDownload_initialized. apply urllibInit_initialises.
  revert Hb. rewrite httpDownload_run.
  destruct (urllibInit env s) as [s1 [[]|e]]; [reflexivity|discriminate].
Qed.

(** What [httpDownload] wrote to the file is what [httpGet] returns for the
    same request in the same environment: when [httpDownload] returns
    [True], its writes are the chunks of the stream, in order, and
    [httpGet] without decoding returns the list of their bytes. *)
Theorem httpGet_reads_what_httpDownload_writes (url path : string)
        (headers : option (gmap string string)) (timeout : Z)
        (s s' s'' : session) :
  snd (urllibInit env s) = Ok tt ->
  httpDownload env url path headers timeout s' = (s'', Ok true) ->
  exists chunks,
    trace s''
    = trace s' ++ UrlOpen (request_of url headers) timeout
               :: map (FileWrite path) chunks
    /\ snd (httpGet env url headers timeout None s)
       = Ok (VList (map int_of_byte (concat chunks))).
Proof.
  intros Hinit Hdown. rewrite httpDownload_run in Hdown.
  pose proof (urllibInit_trace env s') as Htr.
  destruct (urllibInit env s') as [s1 [[]|e]]; [|discriminate].
  cbv zeta in Hdown. cbn [fst] in Htr.
  destruct (Request_init env url (headers_or_empty headers)) as [[]|e]
    eqn:Hmade; [|discriminate].
  destruct (urlopen env (request_of url headers) timeout) as [f|e] eqn:Hopen;
    [|discriminate].
  destruct (open_wb env path) as [[]|e]; [|discriminate].
  destruct (download_loop env path f 0 _) as [s3 [n|e]] eqn:Hloop;
    [|discriminate].
  destruct (file_close env path n) as [[]|e]; [|discriminate].
  injection Hdown as <-.
  apply download_loop_inv in Hloop as (chunks & Hreads & _ & _ & ->).
  exists chunks. cbn [trace]. rewrite Htr, <- app_assoc. split; [reflexivity|].
  rewrite httpGet_run.
  destruct (urllibInit env s) as [s0 [[]|e]]; [|discriminate].
  rewrite Hmade. cbv zeta. rewrite Hopen.
  cbn [snd decode_truthy opt_str_truthy].
  apply reads_all_split in Hreads as (Hne & rest & -> & Hrest).
  rewrite (get_loop_bytes env None chunks rest [] eq_refl Hne).
  destruct Hrest as [->|[r ->]]; reflexivity.
Qed.

End MoreHttp.

(** The opener is set up by the first call that returns, once and for all:
    after a call of [httpGet] or of [httpDownload] that returned, every
    later call of the two returns, whatever its arguments and whatever the
    preferences and the network have become. *)
Theorem http_initialised_once (env env' : Http.Env)
        (url url' path path' : string)
        (headers headers' : option (gmap string string))
        (timeout timeout' : Z) (decode decode' : option string)
        (s : Http.session) :
  let after_get := fst (Http.httpGet env url headers timeout decode s) in
  let after_down := fst (Http.httpDownload env url path headers timeout s) in
  (forall v,
     snd (Http.httpGet env url headers timeout decode s) = Py.Ok v ->
     (exists v',
        snd (Http.httpGet env' url' headers' timeout' decode' after_get)
        = Py.Ok v')
     /\ (exists b',
           snd (Http.httpDownload env' url' path' headers' timeout' after_get)
           = Py.Ok b'))
  /\ (forall b,
        snd (Http.httpDownload env url path headers timeout s) = Py.Ok b ->
        (exists v',
           snd (Http.httpGet env' url' headers' timeout' decode' after_down)
           = Py.Ok v')
        /\ (exists b',
              snd (Http.httpDownload env' url' path' headers' timeout'
                                     after_down)
              = Py.Ok b')).
Proof.
  intros after_get after_down. split.
  - intros v Hv. apply http_returns_initialised.
    exact (httpGet_returns_initialised env _ _ _ _ _ _ Hv).
  - intros b Hb. apply http_returns_initialised.
    exact (httpDownload_returns_initialised env _ _ _ _ _ _ Hb).
Qed.

Section MoreHttpExamples.
Import Py Http Examples.

Lemma httpGet_reads_what_httpDownload_writes_witness :
  let down :=
    httpDownload (env_with ∅ two_chunks) "http://x" "/tmp/f" None 30
                 new_session in
  snd (urllibInit (env_with ∅ two_chunks) new_session) = Ok tt
  /\ down = (fst down, Ok true)
  /\ exists chunks,
       trace (fst down)
       = UrlOpen (request_of "http://x" None) 30
           :: map (FileWrite "/tmp/f") chunks
       /\ snd (httpGet (env_with ∅ two_chunks) "http://x" None 30 None
                      new_session)
          = Ok (VList (map int_of_byte (concat chunks))).
Proof.
  intros down.
  assert (Hinit : snd (urllibInit (env_with ∅ two_chunks) new_session) = Ok tt)
    by (vm_compute; reflexivity).
  assert (Hdown : down = (fst down, Ok true)) by (vm_compute; reflexivity).
  split; [exact Hinit|]. split; [exact Hdown|].
  exact (httpGet_reads_what_httpDownload_writes (env_with ∅ two_chunks)
           "http://x" "/tmp/f" None 30 new_session new_session (fst down)
           Hinit Hdown).
Defined.

End MoreHttpExamples.
